(** * Mortgages: the record validator, the repository and the aggregator

    A shallow embedding of [app.py] (the Streamlit pipeline over the
    [customers] table) and of the data-access functions of [main.py] (the
    Flask page over the [users] table), with the properties of the
    specification proved about them.

    Conventions of the model.
    - Text is a Rocq [string] read as ASCII: Python's [str.strip],
      [str.upper], the [re] classes and SQLite's LIKE folding are given on
      the code points below 128 and leave the other 8-bit values alone.
    - Numbers held in REAL columns and Python floats are exact rationals
      ([Q]); rounding is not modelled.  The outcome of a float division is
      an [xreal], which adds the IEEE infinities and NaN.
    - [created_at] is the number of seconds of the [datetime('now')] text;
      the text has a fixed width, so its order is the order of the number.
    - A database file is a value of type [db]; each repository function
      takes the file before the call and returns the file after it. *)

From Stdlib Require Import Bool Arith ZArith QArith Qminmax Lia Lqa List.
From Stdlib Require Import Ascii String DecimalString.
From Stdlib Require Import Sorting.Sorted Sorting.Permutation.
Import ListNotations.

Local Close Scope Q_scope.
Local Open Scope string_scope.
Local Open Scope list_scope.
Local Open Scope bool_scope.
Local Open Scope nat_scope.

(** ** Text: the [str] methods the program calls *)

Module Text.

Definition ord (c : ascii) : nat := nat_of_ascii c.

(** [str.isspace] on one ASCII character: TAB, LF, VT, FF, CR, the four
    separators FS, GS, RS, US, and the space. *)
Definition isspace (c : ascii) : bool :=
  let n := ord c in
  ((9 <=? n) && (n <=? 13)) || ((28 <=? n) && (n <=? 32)).

Definition is_lower (c : ascii) : bool :=
  let n := ord c in (97 <=? n) && (n <=? 122).

Definition is_upper (c : ascii) : bool :=
  let n := ord c in (65 <=? n) && (n <=? 90).

Definition is_alpha (c : ascii) : bool := is_lower c || is_upper c.

Definition is_digit (c : ascii) : bool :=
  let n := ord c in (48 <=? n) && (n <=? 57).

Definition upper_char (c : ascii) : ascii :=
  if is_lower c then ascii_of_nat (ord c - 32) else c.

Definition lower_char (c : ascii) : ascii :=
  if is_upper c then ascii_of_nat (ord c + 32) else c.

Fixpoint upper (s : string) : string :=
  match s with
  | EmptyString => EmptyString
  | String c s' => String (upper_char c) (upper s')
  end.

Fixpoint lstrip (s : string) : string :=
  match s with
  | EmptyString => EmptyString
  | String c s' => if isspace c then lstrip s' else s
  end.

Fixpoint rstrip (s : string) : string :=
  match s with
  | EmptyString => EmptyString
  | String c s' =>
      match rstrip s' with
      | EmptyString => if isspace c then EmptyString else String c EmptyString
      | t => String c t
      end
  end.

(** [s.strip()] *)
Definition strip (s : string) : string := rstrip (lstrip s).

(** Truth value of a [str]: the empty string is false. *)
Definition truthy (s : string) : bool :=
  match s with EmptyString => false | _ => true end.

Fixpoint all_chars (p : ascii -> bool) (s : string) : bool :=
  match s with
  | EmptyString => true
  | String c s' => p c && all_chars p s'
  end.

End Text.

(** ** Regular expressions: the fragment of [re] used by the validator *)

Module Regex.

Inductive re : Type :=
| Bol                          (* ^ *)
| Eol                          (* $ *)
| Lit (c : ascii)              (* a literal character *)
| Class (p : ascii -> bool)    (* [...] and \d *)
| Cat (r1 r2 : re)             (* r1 r2 *)
| Opt (r : re)                 (* r? *)
| Rep (n : nat) (r : re).      (* r{n} *)

(** [$] without MULTILINE: at the end of the string, or just before a
    newline that is the last character. *)
Definition at_eol (rest : string) : bool :=
  match rest with
  | EmptyString => true
  | String c EmptyString => Ascii.eqb c "010"%char
  | _ => false
  end.

(** Backtracking matcher in continuation style: [go r pos s k] tries [r]
    at offset [pos], where [s] is what remains of the subject, and hands
    the offset and the remainder after each way of matching to [k]. *)
Fixpoint go (r : re) (pos : nat) (s : string)
         (k : nat -> string -> bool) {struct r} : bool :=
  match r with
  | Bol => if Nat.eqb pos 0 then k pos s else false
  | Eol => if at_eol s then k pos s else false
  | Lit c =>
      match s with
      | String d s' => if Ascii.eqb c d then k (S pos) s' else false
      | EmptyString => false
      end
  | Class p =>
      match s with
      | String d s' => if p d then k (S pos) s' else false
      | EmptyString => false
      end
  | Cat r1 r2 => go r1 pos s (fun pos' s' => go r2 pos' s' k)
  | Opt r1 => go r1 pos s k || k pos s
  | Rep n r1 =>
      (fix rep (n : nat) (pos : nat) (s : string) : bool :=
         match n with
         | O => k pos s
         | S n' => go r1 pos s (rep n')
         end) n pos s
  end.

(** [pattern.match(s)] as a truth value: a match object exists iff the
    pattern matches some prefix of [s] starting at offset 0. *)
Definition re_match (r : re) (s : string) : bool :=
  go r 0 s (fun _ _ => true).

End Regex.

(** ** SQLite: the LIKE operator and the outcome of a statement *)

Module Sqlite.

Import Text.

(** [like p s] is [s LIKE p] with the default settings: [%] stands for any
    run of characters, [_] for exactly one, every other character of the
    pattern for itself up to ASCII case, and there is no escape
    character. *)
Fixpoint like (p s : string) {struct p} : bool :=
  match p with
  | EmptyString => match s with EmptyString => true | _ => false end
  | String c p' =>
      if Ascii.eqb c "%"%char then
        (fix star (s : string) : bool :=
           like p' s ||
           match s with
           | EmptyString => false
           | String _ s' => star s'
           end) s
      else if Ascii.eqb c "_"%char then
        match s with
        | EmptyString => false
        | String _ s' => like p' s'
        end
      else
        match s with
        | EmptyString => false
        | String d s' =>
            Ascii.eqb (lower_char c) (lower_char d) && like p' s'
        end
  end.

(** The exceptions of the [sqlite3] module that the modelled calls can
    raise. *)
Inductive error : Type :=
| OperationalError (msg : string)   (* syntax error, SQLITE_FULL, ... *)
| ProgrammingError (msg : string)   (* wrong kind or number of bindings *)
| OverflowError (msg : string).     (* int outside the 64-bit range *)

Definition str_of_error (e : error) : string :=
  match e with
  | OperationalError m | ProgrammingError m | OverflowError m => m
  end.

(** [Ok a]: the call returned, [a] describes the file (or the value)
    after it.  [Raise e]: the call raised [e]; nothing was committed and
    the file is as it was before the call. *)
Inductive outcome (A : Type) : Type :=
| Ok (a : A)
| Raise (e : error).

Arguments Ok {A} a.
Arguments Raise {A} e.

(** The file after a call that started on [before]. *)
Definition file_after {A : Type} (before : A) (o : outcome A) : A :=
  match o with
  | Ok after => after
  | Raise _ => before
  end.

(** SQLite integers are signed 64-bit; [sqlite3] refuses to bind a
    Python int outside that range. *)
Definition MAX_ROWID : Z := 9223372036854775807%Z.
Definition in_int64 (z : Z) : bool :=
  ((- MAX_ROWID - 1 <=? z) && (z <=? MAX_ROWID))%Z.

End Sqlite.

(** ** Floats with the IEEE special values *)

Module Float.

Inductive xreal : Type :=
| Fin (q : Q)
| PInf
| NInf
| NaN.

Definition Qzero (q : Q) : bool := Qeq_bool q 0.
Definition Qpos (q : Q) : bool := negb (Qle_bool q 0).
Definition Qneg (q : Q) : bool := negb (Qle_bool 0 q).

(** [a / b] on two finite floats, as numpy divides (no exception on a
    zero divisor; zero is taken as +0.0). *)
Definition fdiv (a b : Q) : xreal :=
  if Qzero b then
    if Qpos a then PInf else if Qneg a then NInf else NaN
  else Fin (a / b)%Q.

Definition isnan (x : xreal) : bool :=
  match x with NaN => true | _ => false end.

(** [x > u] for a finite [u]; every comparison with NaN is false. *)
Definition gt (x : xreal) (u : Q) : bool :=
  match x with
  | Fin q => negb (Qle_bool q u)
  | PInf => true
  | NInf | NaN => false
  end.

Definition xadd (x y : xreal) : xreal :=
  match x, y with
  | NaN, _ | _, NaN => NaN
  | PInf, NInf | NInf, PInf => NaN
  | PInf, _ | _, PInf => PInf
  | NInf, _ | _, NInf => NInf
  | Fin a, Fin b => Fin (a + b)%Q
  end.

(** [x / n] and [x * c] for a finite positive [n] and [c]. *)
Definition xdiv_pos (x : xreal) (n : Q) : xreal :=
  match x with Fin a => Fin (a / n)%Q | _ => x end.

Definition xmul_pos (x : xreal) (c : Q) : xreal :=
  match x with Fin a => Fin (a * c)%Q | _ => x end.

End Float.

(** ** pandas: the Series operations of the top metrics *)

Module Pandas.

Import Float.

(** [Series.sum()] of a column of finite floats. *)
Definition sum (col : list Q) : Q := fold_left Qplus col 0%Q.

(** [a / b], element by element over two columns of one frame. *)
Definition div (a b : list Q) : list xreal :=
  map (fun ab => fdiv (fst ab) (snd ab)) (combine a b).

(** [Series.clip(upper=u)]: the values above [u] become [u], the others
    (NaN among them) stay. *)
Definition clip_upper (u : Q) (col : list xreal) : list xreal :=
  map (fun x => if gt x u then Fin u else x) col.

(** [Series.mean()] with the default [skipna=True]: NaN entries are left
    out of both the sum and the count; the mean of nothing is NaN. *)
Definition mean (col : list xreal) : xreal :=
  let kept := filter (fun x => negb (isnan x)) col in
  match kept with
  | [] => NaN
  | _ => xdiv_pos (fold_left xadd kept (Fin 0)) (inject_Z (Z.of_nat (List.length kept)))
  end.

End Pandas.

(** ** app.py: the customers table, the validator and the page handlers *)

Module App.

Import Text Regex Sqlite Float.

(** The dict handed to [validate_inputs] and [insert_customer]; the form
    widgets of the page yield values of the same shape. *)
Record customer : Type := {
  last_name : string;
  first_name : string;
  street : string;
  city : string;
  state : string;
  zip_code : string;
  loan_amount : Q;
  estimated_value : Q;
  occupancy_type : string
}.

(** A row of [customers]: the columns of the dict, with the [id] and the
    [created_at] that storage assigns. *)
Record row : Type := {
  id : Z;
  fields : customer;
  created_at : Z
}.

(** The database file: the rows of [customers] in rowid order, and the
    entry of [sqlite_sequence] that AUTOINCREMENT keeps for the table
    (the largest rowid ever used, 0 before the first insert). *)
Record db : Type := {
  customers : list row;
  sqlite_sequence : Z
}.

Definition empty_db : db := {| customers := []; sqlite_sequence := 0 |}.

(** [init_db()]: CREATE TABLE / CREATE INDEX, each IF NOT EXISTS.  On a
    missing file it makes the empty table, on an existing one it changes
    nothing. *)
Definition init_db (file : option db) : db :=
  match file with
  | None => empty_db
  | Some d => d
  end.

Definition max_rowid (rows : list row) : Z :=
  fold_right Z.max 0%Z (map id rows).

(** [insert_customer(rec)], run when the clock reads [now].  The id is
    the AUTOINCREMENT rowid: one more than the largest rowid the table
    has ever held; when that is the largest 64-bit integer the INSERT
    fails with SQLITE_FULL. *)
Definition insert_customer (rec : customer) (now : Z) (d : db) : outcome db :=
  let top := Z.max (max_rowid (customers d)) (sqlite_sequence d) in
  if (MAX_ROWID <=? top)%Z then
    Raise (OperationalError "database or disk is full")
  else
    let new := {| id := (top + 1)%Z; fields := rec; created_at := now |} in
    Ok {| customers := customers d ++ [new];
          sqlite_sequence := (top + 1)%Z |}.

(** [delete_customer(row_id)]: DELETE FROM customers WHERE id = ?. *)
Definition delete_customer (row_id : Z) (d : db) : outcome db :=
  if in_int64 row_id then
    Ok {| customers := filter (fun r => negb (id r =? row_id)%Z) (customers d);
          sqlite_sequence := sqlite_sequence d |}
  else
    Raise (OverflowError "Python int too large to convert to SQLite INTEGER").

(** The [filters] dict of [fetch_customers]: each of the three keys is
    either missing ([None]) or bound to a string. *)
Record filter_dict : Type := {
  get_name : option string;
  get_city : option string;
  get_state : option string
}.

(** Truth value of [filters.get(key)]: a missing key gives [None], an
    empty string is false too. *)
Definition present (v : option string) : option string :=
  match v with
  | Some s => if truthy s then Some s else None
  | None => None
  end.

(** The [where] list of [fetch_customers], each SQL condition together
    with its bound parameters read as a test on a row.  The outer
    [if filters:] fails for [None] and for the empty dict; the empty dict
    is the [filter_dict] with no key bound, which adds no condition. *)
Definition where_clauses (filters : option filter_dict) : list (row -> bool) :=
  match filters with
  | None => []
  | Some f =>
      (match present (get_name f) with
       | Some name =>
           let like_ := ("%" ++ name ++ "%")%string in
           [fun r => like like_ (last_name (fields r))
                     || like like_ (first_name (fields r))]
       | None => []
       end)
      ++
      (match present (get_city f) with
       | Some c => [fun r => like ("%" ++ c ++ "%")%string (city (fields r))]
       | None => []
       end)
      ++
      (match present (get_state f) with
       | Some s => [fun r => String.eqb (state (fields r)) (strip (upper s))]
       | None => []
       end)
  end.

(** ORDER BY created_at DESC, id DESC: [comes_first a b] when [a] is
    listed no later than [b]. *)
Definition comes_first (a b : row) : bool :=
  (created_at b <? created_at a)%Z
  || ((created_at a =? created_at b)%Z && (id b <=? id a)%Z).

Fixpoint place (r : row) (sorted : list row) : list row :=
  match sorted with
  | [] => [r]
  | x :: rest => if comes_first r x then r :: sorted else x :: place r rest
  end.

Definition order_by (rows : list row) : list row :=
  fold_right place [] rows.

(** [fetch_customers(filters)]: the rows that pass every condition of
    the WHERE clause (the conditions are joined with AND), ordered. *)
Definition fetch_customers (filters : option filter_dict) (d : db) : list row :=
  let where_ := where_clauses filters in
  order_by (filter (fun r => forallb (fun cond => cond r) where_) (customers d)).

(** *** Validation *)

Definition STATE_RE : re := Cat Bol (Cat (Rep 2 (Class is_alpha)) Eol).

Definition ZIP_RE : re :=
  Cat Bol
    (Cat (Rep 5 (Class is_digit))
       (Cat (Opt (Cat (Lit "-") (Rep 4 (Class is_digit)))) Eol)).

Definition msg_state : string := "State must be a 2-letter code (e.g., AZ, CA).".
Definition msg_zip : string :=
  "Zip Code must be 5 digits or ZIP+4 (e.g., 85212 or 85212-1234).".
Definition msg_loan : string := "Loan amount must be greater than 0.".
Definition msg_value : string := "Estimated value must be greater than 0.".

Definition validate_inputs (d : customer) : option string :=
  if negb (re_match STATE_RE (state d)) then Some msg_state
  else if negb (re_match ZIP_RE (zip_code d)) then Some msg_zip
  else if Qle_bool (loan_amount d) 0 then Some msg_loan
  else if Qle_bool (estimated_value d) 0 then Some msg_value
  else None.

(** *** Top metrics *)

Record metrics : Type := {
  total_customers : nat;
  total_loan : Q;
  avg_ltv : option xreal
}.

Definition top_metrics (df_all : list row) : metrics :=
  let total_customers := List.length df_all in
  let loans := map (fun r => loan_amount (fields r)) df_all in
  let values := map (fun r => estimated_value (fields r)) df_all in
  {| total_customers := total_customers;
     total_loan := match total_customers with
                   | O => 0%Q
                   | _ => Pandas.sum loans
                   end;
     avg_ltv := match total_customers with
                | O => None
                | _ =>
                    let ltv_series := Pandas.clip_upper 5 (Pandas.div loans values) in
                    Some (xmul_pos (Pandas.mean ltv_series) 100)
                end |}.

(** *** The page handlers *)

Inductive st_call : Type :=
| st_error (body : string)
| st_success (body : string).

(** The body of [if submitted:] in the Add Customer form.  [input] holds
    the widget values; the result is the message shown and the file
    after the handler. *)
Definition add_customer_form (input : customer) (now : Z) (d : db)
  : st_call * db :=
  let record :=
    {| last_name := strip (last_name input);
       first_name := strip (first_name input);
       street := strip (street input);
       city := strip (city input);
       state := upper (strip (state input));
       zip_code := strip (zip_code input);
       loan_amount := loan_amount input;
       estimated_value := estimated_value input;
       occupancy_type := occupancy_type input |} in
  if existsb (fun v => negb (truthy v))
       [last_name record; first_name record; street record;
        city record; state record; zip_code record]
  then (st_error "Please complete all required fields marked with *.", d)
  else
    match validate_inputs record with
    | Some msg =>
        if truthy msg then (st_error msg, d)
        else
          match insert_customer record now d with
          | Ok d' => (st_success ("Added " ++ first_name record ++ " " ++ last_name record ++ " ✔️")%string, d')
          | Raise e => (st_error ("Failed to insert record: " ++ str_of_error e)%string, d)
          end
    | None =>
        match insert_customer record now d with
        | Ok d' => (st_success ("Added " ++ first_name record ++ " " ++ last_name record ++ " ✔️")%string, d')
        | Raise e => (st_error ("Failed to insert record: " ++ str_of_error e)%string, d)
        end
    end.

(** The body of the Delete Selected Row button; [did] is the id picked
    in the select box.  The call is [delete_customer(int())], and
    [int()] is 0. *)
Definition delete_selected_row (did : Z) (d : db) : st_call * db :=
  match delete_customer 0%Z d with
  | Ok d' => (st_success ("Deleted row #" ++ NilZero.string_of_int (Z.to_int did))%string, d')
  | Raise e => (st_error ("Delete failed: " ++ str_of_error e)%string, d)
  end.

End App.

(** ** main.py: the users table behind the Flask page

  [update_user] and [delete_user] hand a statement text and a Python
  value to [cursor.execute].  What they do is decided by how [sqlite3]
  treats the text and the value, so the module models that call for the
  two statement forms of the file: the text is split into tokens and
  parsed, the names are resolved, the parameters are bound, and only then
  is the table touched. *)

Module Main.

Import Text Sqlite.

(** Python values that reach [execute] as parameters. *)
#[local] Unset Elimination Schemes.
Inductive pyval : Type :=
| PInt (z : Z)
| PStr (s : string)
| PTuple (items : list pyval).
#[local] Set Elimination Schemes.

(** Values stored in a column. *)
Inductive sqlval : Type :=
| VInt (z : Z)
| VText (s : string).

Record user : Type := {
  id : Z;          (* INTEGER PRIMARY KEY *)
  name : sqlval;   (* TEXT NOT NULL *)
  age : sqlval     (* INTEGER NOT NULL *)
}.

Definition users_db : Type := list user.

(** *** Tokens *)

Inductive token : Type :=
| Word (w : string)
| Comma
| Equal
| QMark
| Other (c : ascii).

Definition is_word_char (c : ascii) : bool :=
  is_alpha c || is_digit c || Ascii.eqb c "_"%char.

Definition flush (w : string) (rest : list token) : list token :=
  match w with
  | EmptyString => rest
  | _ => Word w :: rest
  end.

Definition punct (c : ascii) : token :=
  if Ascii.eqb c ","%char then Comma
  else if Ascii.eqb c "="%char then Equal
  else if Ascii.eqb c "?"%char then QMark
  else Other c.

(** White space between tokens: space, TAB, LF, FF, CR. *)
Definition sql_space (c : ascii) : bool :=
  existsb (Nat.eqb (ord c)) [32; 9; 10; 12; 13].

(** [lex s w]: the tokens of [s], where [w] is the word read so far. *)
Fixpoint lex (s : string) (w : string) : list token :=
  match s with
  | EmptyString => flush w []
  | String c s' =>
      if is_word_char c then lex s' (w ++ String c EmptyString)%string
      else if sql_space c then flush w (lex s' EmptyString)
      else flush w (punct c :: lex s' EmptyString)
  end.

Definition kw (k w : string) : bool := String.eqb (upper w) k.

Definition is_keyword (w : string) : bool :=
  existsb (fun k => kw k w) ["UPDATE"; "SET"; "WHERE"; "DELETE"; "FROM"].

(** *** Statements *)

Inductive stmt : Type :=
| Update (table : string) (sets : list string) (where_col : option string)
| Delete (table : string) (where_col : option string).

(** The result of compiling a text.  [Outside]: the text is not of one of
    the two modelled forms, and the model says nothing about it. *)
Inductive parsed : Type :=
| Parsed (s : stmt)
| SyntaxError (near : string)
| Outside.

(** The assignments after SET, each [column = ?], separated by commas,
    then an optional [WHERE column = ?].  After a comma the grammar wants
    the name of the next assignment; the keyword WHERE there is a syntax
    error. *)
Fixpoint parse_sets (ts : list token)
  : option (list string * option string) + string :=
  match ts with
  | Word c :: Equal :: QMark :: tl =>
      if is_keyword c then inl None
      else
        match tl with
        | [] => inl (Some ([c], None))
        | Comma :: tl' =>
            match tl' with
            | Word w :: _ =>
                if kw "WHERE" w then inr w
                else
                  match parse_sets tl' with
                  | inl (Some (cs, wh)) => inl (Some (c :: cs, wh))
                  | other => other
                  end
            | _ => inl None
            end
        | [Word w; Word col; Equal; QMark] =>
            if kw "WHERE" w && negb (is_keyword col)
            then inl (Some ([c], Some col)) else inl None
        | _ => inl None
        end
  | _ => inl None
  end.

Definition parse (ts : list token) : parsed :=
  match ts with
  | Word u :: Word t :: Word s :: rest =>
      if kw "UPDATE" u && kw "SET" s && negb (is_keyword t) then
        match parse_sets rest with
        | inl (Some (cs, wh)) => Parsed (Update t cs wh)
        | inl None => Outside
        | inr w => SyntaxError w
        end
      else if kw "DELETE" u && kw "FROM" t && negb (is_keyword s) then
        match rest with
        | [] => Parsed (Delete s None)
        | [Word w; Word col; Equal; QMark] =>
            if kw "WHERE" w && negb (is_keyword col)
            then Parsed (Delete s (Some col)) else Outside
        | _ => Outside
        end
      else Outside
  | _ => Outside
  end.

Definition is_column (c : string) : bool :=
  existsb (fun k => String.eqb (upper c) k) ["ID"; "NAME"; "AGE"].

(** Name resolution, the last step of compiling a statement. *)
Definition resolve (s : stmt) : outcome stmt :=
  let '(table, cols) :=
    match s with
    | Update t cs wh => (t, cs ++ match wh with Some c => [c] | None => [] end)
    | Delete t wh => (t, match wh with Some c => [c] | None => [] end)
    end in
  if negb (String.eqb (upper table) "USERS") then
    Raise (OperationalError ("no such table: " ++ table)%string)
  else
    match filter (fun c => negb (is_column c)) cols with
    | [] => Ok s
    | c :: _ => Raise (OperationalError ("no such column: " ++ c)%string)
    end.

(** The number of [?] in a statement. *)
Definition placeholders (s : stmt) : nat :=
  match s with
  | Update _ cs wh => List.length cs + match wh with Some _ => 1 | None => 0 end
  | Delete _ wh => match wh with Some _ => 1 | None => 0 end
  end.

(** *** Binding *)

Fixpoint chars (s : string) : list pyval :=
  match s with
  | EmptyString => []
  | String c s' => PStr (String c EmptyString) :: chars s'
  end.

(** The parameters must be a sequence: a tuple, or a [str], which is the
    sequence of its characters.  An int is not. *)
Definition as_sequence (parameters : pyval) : option (list pyval) :=
  match parameters with
  | PTuple items => Some items
  | PStr s => Some (chars s)
  | PInt _ => None
  end.

Definition bind_one (v : pyval) : outcome sqlval :=
  match v with
  | PInt z =>
      if in_int64 z then Ok (VInt z)
      else Raise (OverflowError "Python int too large to convert to SQLite INTEGER")
  | PStr s => Ok (VText s)
  | PTuple _ => Raise (ProgrammingError "Error binding parameter: type 'tuple' is not supported")
  end.

Fixpoint bind_all (items : list pyval) : outcome (list sqlval) :=
  match items with
  | [] => Ok []
  | v :: rest =>
      match bind_one v with
      | Raise e => Raise e
      | Ok b =>
          match bind_all rest with
          | Raise e => Raise e
          | Ok bs => Ok (b :: bs)
          end
      end
  end.

(** *** Running a bound statement *)

Definition int_of_text (s : string) : option Z :=
  option_map Z.of_int (NilZero.int_of_string s).

Definition text_of_int (z : Z) : string := NilZero.string_of_int (Z.to_int z).

(** Column affinity: INTEGER columns turn a decimal text into the
    integer, the TEXT column turns an integer into its decimal text. *)
Definition to_integer (v : sqlval) : sqlval :=
  match v with
  | VText s => match int_of_text s with Some z => VInt z | None => v end
  | VInt _ => v
  end.

Definition to_text (v : sqlval) : sqlval :=
  match v with
  | VInt z => VText (text_of_int z)
  | VText _ => v
  end.

Definition sqlval_eqb (a b : sqlval) : bool :=
  match a, b with
  | VInt x, VInt y => (x =? y)%Z
  | VText x, VText y => String.eqb x y
  | _, _ => false
  end.

Definition col_test (c : string) (v : sqlval) (u : user) : bool :=
  if String.eqb (upper c) "ID" then sqlval_eqb (VInt (id u)) (to_integer v)
  else if String.eqb (upper c) "NAME" then sqlval_eqb (name u) (to_text v)
  else sqlval_eqb (age u) (to_integer v).

(** [SET c = v] on one row.  Assigning the primary key is left out of the
    model: the row keeps its id. *)
Definition col_set (c : string) (v : sqlval) (u : user) : user :=
  if String.eqb (upper c) "NAME" then {| id := id u; name := to_text v; age := age u |}
  else if String.eqb (upper c) "AGE" then {| id := id u; name := name u; age := to_integer v |}
  else u.

Definition matches (wh : option string) (args : list sqlval) (u : user) : bool :=
  match wh, args with
  | Some c, v :: _ => col_test c v u
  | _, _ => true
  end.

Definition run_stmt (s : stmt) (args : list sqlval) (d : users_db) : users_db :=
  match s with
  | Update _ cs wh =>
      let sets := combine cs args in
      let cond := matches wh (skipn (List.length cs) args) in
      map (fun u =>
             if cond u
             then fold_left (fun u' cv => col_set (fst cv) (snd cv) u') sets u
             else u) d
  | Delete _ wh => filter (fun u => negb (matches wh args u)) d
  end.

(** *** [cursor.execute(sql, parameters)] followed by [conn.commit()] *)

Definition dquote : ascii := ascii_of_nat 34.

Definition execute (sql : string) (parameters : pyval) (d : users_db)
  : outcome users_db :=
  match parse (lex sql EmptyString) with
  | Outside => Raise (OperationalError "statement outside the modelled forms")
  | SyntaxError w =>
      Raise (OperationalError ("near " ++ String dquote w ++ String dquote ": syntax error")%string)
  | Parsed s0 =>
      match resolve s0 with
      | Raise e => Raise e
      | Ok s =>
          match as_sequence parameters with
          | None => Raise (ProgrammingError "parameters are of unsupported type")
          | Some items =>
              if negb (List.length items =? placeholders s) then
                Raise (ProgrammingError "Incorrect number of bindings supplied.")
              else
                match bind_all items with
                | Raise e => Raise e
                | Ok args => Ok (run_stmt s args d)
                end
          end
      end
  end.

(** *** The two functions of the file *)

Definition update_user (id_ name_ age_ : pyval) (d : users_db) : outcome users_db :=
  execute "UPDATE users SET name = ?, age = ?, WHERE id = ?"
          (PTuple [name_; age_; id_]) d.

(** [(id)] is [id] itself, not a tuple. *)
Definition delete_user (id_ : pyval) (d : users_db) : outcome users_db :=
  execute "DELETE FROM users WHERE id = ?" id_ d.

End Main.

(** ** The vocabulary of the specification

  The definitions below follow the words of the specification; the
  theorems compare them with the program. *)

Module Spec.

Import Text Sqlite Float App.

(** *** Substrings up to case *)

Fixpoint lower (s : string) : string :=
  match s with
  | EmptyString => EmptyString
  | String c s' => String (lower_char c) (lower s')
  end.

Fixpoint prefix_ci (f s : string) : bool :=
  match f, s with
  | EmptyString, _ => true
  | String _ _, EmptyString => false
  | String a f', String b s' =>
      Ascii.eqb (lower_char a) (lower_char b) && prefix_ci f' s'
  end.

(** [s] contains [f] as a case-insensitive substring. *)
Fixpoint contains_ci (f s : string) : bool :=
  prefix_ci f s ||
  match s with
  | EmptyString => false
  | String _ s' => contains_ci f s'
  end.





(** *** The three filters, read literally: a filter is present when its
    key is bound, whatever the string. *)







(** A filter dict with the keys that are bound to the empty string
    removed. *)
Definition omit_empty (f : filter_dict) : filter_dict :=
  {| get_name := present (get_name f);
     get_city := present (get_city f);
     get_state := present (get_state f) |}.

(** *** Order of the listing *)


(** *** Well-formed files *)

(** What PRIMARY KEY AUTOINCREMENT maintains: ids are unique, positive,
    and none exceeds the recorded sequence value. *)
Definition wf (d : db) : Prop :=
  NoDup (map id (customers d))
  /\ Forall (fun r => (1 <= id r <= sqlite_sequence d)%Z) (customers d)
  /\ (0 <= sqlite_sequence d <= MAX_ROWID)%Z.

(** *** Sessions: sequences of repository calls *)

Inductive call : Type :=
| Init
| Create (rec : customer) (now : Z)
| Remove (row_id : Z).

(** The ids of the rows that a call appended. *)
Definition assigned (before after : db) : list Z :=
  map id (skipn (List.length (customers before)) (customers after)).

(** One call on a file; the second component lists the ids assigned so
    far, most recent first.  A call that raises leaves the file alone. *)
Definition step (st : db * list Z) (c : call) : db * list Z :=
  let (d, log) := st in
  match c with
  | Init => (init_db (Some d), log)
  | Create rec now =>
      match insert_customer rec now d with
      | Ok d' => (d', rev (assigned d d') ++ log)
      | Raise _ => (d, log)
      end
  | Remove row_id =>
      match delete_customer row_id d with
      | Ok d' => (d', log)
      | Raise _ => (d, log)
      end
  end.

Definition run (calls : list call) : db * list Z :=
  fold_left step calls (init_db None, []).

(** What holds of a file and its log of assigned ids after any number of
    calls. *)
Definition log_ok (st : db * list Z) : Prop :=
  wf (fst st)
  /\ StronglySorted Z.gt (snd st)
  /\ Forall (fun i => (1 <= i <= sqlite_sequence (fst st))%Z) (snd st)
  /\ Forall (fun r => In (id r) (snd st)) (customers (fst st)).

(** *** The create path *)

(** The dict that the form handler builds from the widget values. *)
Definition form_record (input : customer) : customer :=
  {| last_name := strip (last_name input);
     first_name := strip (first_name input);
     street := strip (street input);
     city := strip (city input);
     state := upper (strip (state input));
     zip_code := strip (zip_code input);
     loan_amount := loan_amount input;
     estimated_value := estimated_value input;
     occupancy_type := occupancy_type input |}.

Definition required (c : customer) : list string :=
  [last_name c; first_name c; street c; city c; state c; zip_code c].

(** *** The metrics in the words of the specification *)


(** The two columns that the metrics read. *)
Definition loans (df : list row) : list Q :=
  map (fun r => loan_amount (fields r)) df.
Definition values (df : list row) : list Q :=
  map (fun r => estimated_value (fields r)) df.




End Spec.

(** ** Sample data *)

Module Samples.

Import Sqlite App Spec.


(** The dict that the form handler builds from them. *)
Definition jane : customer :=
  {| last_name := "Doe"; first_name := "Jane"; street := "123 Main St";
     city := "Phoenix"; state := "AZ"; zip_code := "85212";
     loan_amount := 200000; estimated_value := 250000;
     occupancy_type := "Primary Residence" |}.

Definition omar : customer :=
  {| last_name := "Reyes"; first_name := "Omar"; street := "9 Elm Ave";
     city := "Reno"; state := "NV"; zip_code := "89501-0042";
     loan_amount := 800000; estimated_value := 100000;
     occupancy_type := "Investment" |}.

Definition jane_row : row := {| id := 1; fields := jane; created_at := 1700000000 |}.
Definition omar_row : row := {| id := 2; fields := omar; created_at := 1700000000 |}.

Definition one_row : db := {| customers := [jane_row]; sqlite_sequence := 1 |}.
Definition two_rows : db := {| customers := [jane_row; omar_row]; sqlite_sequence := 2 |}.

Definition only_name (n : string) : filter_dict :=
  {| get_name := Some n; get_city := None; get_state := None |}.
Definition only_city (c : string) : filter_dict :=
  {| get_name := None; get_city := Some c; get_state := None |}.
Definition only_state (s : string) : filter_dict :=
  {| get_name := None; get_city := None; get_state := Some s |}.
Definition all_empty : filter_dict :=
  {| get_name := Some EmptyString; get_city := Some EmptyString;
     get_state := Some EmptyString |}.

(** Two records with loan-to-value ratios 0.5 and 8.0. *)
Definition half : row :=
  {| id := 1; created_at := 1700000000;
     fields := {| last_name := "Doe"; first_name := "Jane"; street := "123 Main St";
                  city := "Phoenix"; state := "AZ"; zip_code := "85212";
                  loan_amount := 100000; estimated_value := 200000;
                  occupancy_type := "Second Home" |} |}.
Definition eightfold : row := omar_row.


(** A row that the validator would refuse: no loan on no value. *)
Definition zero_on_zero : row :=
  {| id := 3; created_at := 1700000000;
     fields := {| last_name := "Roe"; first_name := "Max"; street := "1 Oak Rd";
                  city := "Tempe"; state := "AZ"; zip_code := "85281";
                  loan_amount := 0; estimated_value := 0;
                  occupancy_type := "Investment" |} |}.

(** Two rows of the users table of main.py. *)
Definition ann : Main.user :=
  {| Main.id := 1; Main.name := Main.VText "Ann"; Main.age := Main.VInt 30 |}.
Definition bob : Main.user :=
  {| Main.id := 2; Main.name := Main.VText "Bob"; Main.age := Main.VInt 41 |}.

End Samples.

(** ** app.py: the filter panel and a browsing session *)

Module Page.

Import Text Sqlite App.

(** The [filters] dict that the page builds under the Filter expander:
    empty unless Apply Filters was pressed; a box that is not empty
    contributes its stripped content. *)
Definition build_filters (apply : bool) (f_name f_city f_state : string)
  : filter_dict :=
  if apply then
    {| get_name := if truthy f_name then Some (strip f_name) else None;
       get_city := if truthy f_city then Some (strip f_city) else None;
       get_state := if truthy f_state then Some (strip f_state) else None |}
  else
    {| get_name := None; get_city := None; get_state := None |}.

(** [df], the frame shown in the Pipeline section. *)
Definition pipeline (apply : bool) (f_name f_city f_state : string) (d : db)
  : list row :=
  fetch_customers (Some (build_filters apply f_name f_city f_state)) d.




End Page.

(** ** main.py: inserting, reading and the routes *)

Module Flask.

Import Text Sqlite Main.

(** The largest id in the table, if there is a row. *)
Definition largest_id (d : users_db) : option Z :=
  match d with
  | [] => None
  | u :: rest => Some (fold_left Z.max (map id rest) (id u))
  end.

Definition unused (d : users_db) (z : Z) : bool :=
  negb (existsb (fun u => (id u =? z)%Z) d).

(** The rowid of a new row in a table with INTEGER PRIMARY KEY and no
    AUTOINCREMENT: 1 in an empty table, otherwise one more than the
    largest id present.  When the largest id is the largest 64-bit
    integer, SQLite draws candidates at random and takes the first that
    is not in use; [draws] are the candidates of that search. *)
Definition new_rowid (draws : list Z) (d : users_db) : option Z :=
  match largest_id d with
  | None => Some 1%Z
  | Some m =>
      if (m =? MAX_ROWID)%Z then find (unused d) draws
      else Some (m + 1)%Z
  end.

(** The table is kept in rowid order, the order of a SELECT without
    ORDER BY. *)
Fixpoint insert_by_id (u : user) (d : users_db) : users_db :=
  match d with
  | [] => [u]
  | x :: rest =>
      if (id u <? id x)%Z then u :: d else x :: insert_by_id u rest
  end.

Section WithAffinity.

(** The conversion that SQLite applies to a value stored in a column of
    INTEGER affinity.  It is SQLite's, not the program's, and the
    properties below do not depend on it. *)
Variable integer_affinity : sqlval -> sqlval.

(** [add_user(name, age)]: INSERT INTO users (name, age) VALUES (?, ?)
    with the tuple [(name, age)], then commit. *)
Definition add_user (name_ age_ : pyval) (draws : list Z) (d : users_db)
  : outcome users_db :=
  match bind_all [name_; age_] with
  | Raise e => Raise e
  | Ok args =>
      match args with
      | [n; a] =>
          match new_rowid draws d with
          | Some i =>
              Ok (insert_by_id
                    {| id := i; name := to_text n; age := integer_affinity a |} d)
          | None => Raise (OperationalError "database or disk is full")
          end
      | _ => Raise (ProgrammingError "Incorrect number of bindings supplied.")
      end
  end.

(** [get_users()]: SELECT * FROM users, all rows. *)
Definition get_users (d : users_db) : users_db := d.

(** *** The routes *)

(** [request.form]: the fields of the submitted form, in order. *)
Definition form_data : Type := list (string * string).

(** [request.form[key]]: the first value of the key; [None] stands for the
    BadRequestKeyError that a missing key raises. *)
Fixpoint form_get (key : string) (form : form_data) : option string :=
  match form with
  | [] => None
  | (k, v) :: rest => if String.eqb k key then Some v else form_get key rest
  end.

Inductive http_method : Type := GET | POST.

(** What the client gets back. *)
Inductive response : Type :=
| Rendered (template : string) (users : users_db)   (* 200 *)
| Redirect (endpoint : string)                      (* 302 *)
| BadRequest                                        (* 400, missing form key *)
| ServerError (e : error)                           (* 500, uncaught exception *)
| NoResponse.                                       (* 500, the view returned None *)

(** [index()] *)
Definition index (d : users_db) : response :=
  Rendered "index.html" (get_users d).

(** [add_user_route()], the POST handler of /add_user: the response and
    the table afterwards. *)
Definition add_user_route (form : form_data) (draws : list Z) (d : users_db)
  : response * users_db :=
  match form_get "name" form with
  | None => (BadRequest, d)
  | Some name_ =>
      match form_get "age" form with
      | None => (BadRequest, d)
      | Some age_ =>
          match add_user (PStr name_) (PStr age_) draws d with
          | Ok d' => (Redirect "index", d')
          | Raise e => (ServerError e, d)
          end
      end
  end.

(** [update_user_route(id)] for GET and POST: on a GET the function falls
    off its end and returns None. *)
Definition update_user_route (id_ : Z) (method : http_method)
           (form : form_data) (d : users_db) : response * users_db :=
  match method with
  | POST =>
      match form_get "name" form with
      | None => (BadRequest, d)
      | Some name_ =>
          match form_get "age" form with
          | None => (BadRequest, d)
          | Some age_ =>
              match update_user (PInt id_) (PStr name_) (PStr age_) d with
              | Ok d' => (Redirect "index", d')
              | Raise e => (ServerError e, d)
              end
          end
      end
  | GET => (NoResponse, d)
  end.

End WithAffinity.

(** The table in rowid order: ids strictly increase along the list, so
    they are unique. *)
Definition rowid_order (d : users_db) : Prop :=
  StronglySorted (fun u v => (id u < id v)%Z) d.

(** The number that a one-character text stands for as an id, if it is a
    decimal digit. *)
Definition digit_id (c : ascii) : option Z :=
  if is_digit c then Some (Z.of_nat (ord c - 48)) else None.

End Flask.

(** ** More vocabulary: shapes of stored values *)

Module Shapes.

Import Text Sqlite Float App Spec.




(** A value that is not above 5: a finite one, or minus infinity, or NaN. *)
Definition at_most_5 (x : xreal) : Prop :=
  match x with
  | Fin q => (q <= 5)%Q
  | PInf => False
  | NInf | NaN => True
  end.

(** The filter dict with only the name, only the city or only the state
    entry of [f]. *)
Definition name_part (f : filter_dict) : filter_dict :=
  {| get_name := get_name f; get_city := None; get_state := None |}.
Definition city_part (f : filter_dict) : filter_dict :=
  {| get_name := None; get_city := get_city f; get_state := None |}.
Definition state_part (f : filter_dict) : filter_dict :=
  {| get_name := None; get_city := None; get_state := get_state f |}.

(** The test that the WHERE clause of a query makes on a row. *)
Definition passes (filters : option filter_dict) (r : row) : bool :=
  forallb (fun cond => cond r) (where_clauses filters).

(** Only white space. *)
Definition blank (s : string) : bool := all_chars isspace s.

(** [a] is listed no later than [b]. *)
Definition no_later (a b : row) : Prop := comes_first a b = true.

(** The number of entries of a column, as a float. *)
Definition count (l : list xreal) : Q := inject_Z (Z.of_nat (List.length l)).

(** A filter box that holds only white space, emptied. *)
Definition unblank (s : string) : string :=
  if blank s then EmptyString else s.



End Shapes.

(** * Properties *)

(** ** Facts about the text functions *)

Module TextFacts.

Import Text.

Lemma rstrip_not_space_head (c : ascii) (s : string) :
  isspace c = false -> rstrip (String c s) = String c (rstrip s).
Proof.
  intros Hc. simpl. destruct (rstrip s); [rewrite Hc|]; reflexivity.
Qed.

Lemma lstrip_head (s : string) :
  lstrip s = EmptyString \/
  exists c t, lstrip s = String c t /\ isspace c = false.
Proof.
  induction s as [|c s IH]; simpl; [now left|].
  destruct (isspace c) eqn:Hc; [exact IH|].
  right. now exists c, s.
Qed.

Lemma lstrip_fixed (c : ascii) (t : string) :
  isspace c = false -> lstrip (String c t) = String c t.
Proof. intros Hc. simpl. now rewrite Hc. Qed.

Lemma rstrip_cons (c : ascii) (s : string) :
  rstrip (String c s) =
  match rstrip s with
  | EmptyString => if isspace c then EmptyString else String c EmptyString
  | t => String c t
  end.
Proof. reflexivity. Qed.

Lemma rstrip_idem (s : string) : rstrip (rstrip s) = rstrip s.
Proof.
  induction s as [|c s IH]; [reflexivity|].
  rewrite rstrip_cons. destruct (rstrip s) as [|c' t] eqn:Hr.
  - destruct (isspace c) eqn:Hc; [reflexivity|].
    rewrite rstrip_cons. simpl. now rewrite Hc.
  - rewrite rstrip_cons, IH. reflexivity.
Qed.

(** A stripped text is EmptyString or starts with a character that is
    not a space. *)
Lemma strip_head (s : string) :
  strip s = EmptyString \/
  exists c t, strip s = String c t /\ isspace c = false.
Proof.
  unfold strip. destruct (lstrip_head s) as [H | (c & t & H & Hc)].
  - rewrite H. now left.
  - rewrite H, (rstrip_not_space_head _ _ Hc). right.
    now exists c, (rstrip t).
Qed.

Lemma strip_idem (s : string) : strip (strip s) = strip s.
Proof.
  destruct (strip_head s) as [H | (c & t & H & Hc)].
  - now rewrite H.
  - unfold strip at 1. rewrite H, (lstrip_fixed _ _ Hc).
    rewrite <- H. unfold strip. apply rstrip_idem.
Qed.

Lemma ord_upper_char (c : ascii) :
  ord (upper_char c) = if is_lower c then ord c - 32 else ord c.
Proof.
  unfold upper_char. destruct (is_lower c) eqn:H; [|reflexivity].
  unfold ord. rewrite nat_ascii_embedding; [reflexivity|].
  pose proof (nat_ascii_bounded c). lia.
Qed.

Lemma isspace_upper_char (c : ascii) : isspace (upper_char c) = isspace c.
Proof.
  unfold isspace. rewrite ord_upper_char.
  destruct (is_lower c) eqn:H; [|reflexivity].
  unfold is_lower in H. apply andb_true_iff in H as [H1 H2].
  apply Nat.leb_le in H1, H2.
  repeat match goal with
         | |- context [?a <=? ?b] => destruct (Nat.leb_spec a b)
         end; simpl; try reflexivity; lia.
Qed.

Lemma upper_char_idem (c : ascii) : upper_char (upper_char c) = upper_char c.
Proof.
  unfold upper_char at 1. unfold is_lower. rewrite ord_upper_char.
  destruct (is_lower c) eqn:H; [|unfold is_lower in H; now rewrite H].
  unfold is_lower in H. apply andb_true_iff in H as [H1 H2].
  apply Nat.leb_le in H1, H2.
  destruct (Nat.leb_spec 97 (ord c - 32)); [lia|]. reflexivity.
Qed.

Lemma upper_idem (s : string) : upper (upper s) = upper s.
Proof.
  induction s as [|c s IH]; simpl; [reflexivity|].
  now rewrite upper_char_idem, IH.
Qed.

Lemma lstrip_upper (s : string) : lstrip (upper s) = upper (lstrip s).
Proof.
  induction s as [|c s IH]; simpl; [reflexivity|].
  rewrite isspace_upper_char. destruct (isspace c); [exact IH|reflexivity].
Qed.

Lemma rstrip_upper (s : string) : rstrip (upper s) = upper (rstrip s).
Proof.
  induction s as [|c s IH]; simpl; [reflexivity|].
  rewrite IH, isspace_upper_char.
  destruct (rstrip s); simpl; [destruct (isspace c)|]; reflexivity.
Qed.

(** Upper-casing and stripping commute, so [s.upper().strip()] and
    [s.strip().upper()] are the same text. *)
Lemma strip_upper (s : string) : strip (upper s) = upper (strip s).
Proof. unfold strip. now rewrite lstrip_upper, rstrip_upper. Qed.

Lemma truthy_true (s : string) : truthy s = true <-> s <> EmptyString.
Proof. destruct s; simpl; split; congruence. Qed.

Lemma upper_empty (s : string) : upper s = EmptyString <-> s = EmptyString.
Proof. destruct s; simpl; split; congruence. Qed.

End TextFacts.

(** ** Facts about LIKE *)

Module LikeFacts.

Import Text Sqlite Spec.

(** The unfolding of a leading [%]. *)
Lemma like_star (p s : string) :
  like (String "%" p) s =
  like p s || match s with
              | EmptyString => false
              | String _ s' => like (String "%" p) s'
              end.
Proof. destruct s; reflexivity. Qed.






Lemma like_star_drop (p : string) (c : ascii) (s : string) :
  like (String "%" p) s = true -> like (String "%" p) (String c s) = true.
Proof. intros H. rewrite like_star, H. apply orb_true_r. Qed.





Lemma contains_ci_empty (s : string) : contains_ci EmptyString s = true.
Proof. destruct s; reflexivity. Qed.

(** *** What [contains_ci] means *)

Lemma prefix_ci_split (f s : string) :
  prefix_ci f s = true <->
  exists mid post, s = (mid ++ post)%string /\ lower mid = lower f.
Proof.
  revert s. induction f as [|a f IH]; intros s.
  - simpl. split; [|destruct s; reflexivity].
    intros _. now exists EmptyString, s.
  - destruct s as [|b s]; simpl.
    + split; [discriminate|]. intros (mid & post & H1 & H2).
      destruct mid; simpl in *; discriminate.
    + rewrite andb_true_iff, IH, Ascii.eqb_eq. split.
      * intros (Hab & mid & post & H1 & H2).
        exists (String b mid), post. simpl. now rewrite H1, H2, Hab.
      * intros (mid & post & H1 & H2).
        destruct mid as [|m mid]; simpl in *; [discriminate|].
        injection H1 as -> ->. injection H2 as Hm H2.
        split; [now symmetry|]. now exists mid, post.
Qed.

Lemma contains_ci_split (f s : string) :
  contains_ci f s = true <->
  exists pre mid post, s = (pre ++ mid ++ post)%string /\ lower mid = lower f.
Proof.
  induction s as [|c s IH].
  - simpl. rewrite orb_false_r, prefix_ci_split. split.
    + intros (mid & post & H1 & H2). now exists EmptyString, mid, post.
    + intros (pre & mid & post & H1 & H2).
      destruct pre; simpl in H1; [|discriminate]. now exists mid, post.
  - simpl contains_ci. rewrite orb_true_iff, IH, prefix_ci_split. split.
    + intros [(mid & post & H1 & H2) | (pre & mid & post & H1 & H2)].
      * now exists EmptyString, mid, post.
      * exists (String c pre), mid, post. simpl. now rewrite H1.
    + intros (pre & mid & post & H1 & H2). destruct pre as [|p pre].
      * left. now exists mid, post.
      * right. simpl in H1. injection H1 as -> ->. now exists pre, mid, post.
Qed.

End LikeFacts.

(** ** Facts about the repository *)

Module RepoFacts.

Import Text Sqlite App Spec.

Local Open Scope Z_scope.

(** *** ORDER BY *)





Lemma place_perm (r : row) (l : list row) : Permutation (place r l) (r :: l).
Proof.
  induction l as [|x l IH]; simpl; [reflexivity|].
  destruct (comes_first r x); [reflexivity|].
  rewrite IH. apply perm_swap.
Qed.

Lemma order_by_perm (l : list row) : Permutation (order_by l) l.
Proof.
  induction l as [|x l IH]; simpl; [reflexivity|].
  unfold order_by in *. simpl. rewrite place_perm. now constructor.
Qed.

Lemma In_order_by (r : row) (l : list row) : In r (order_by l) <-> In r l.
Proof.
  split; apply Permutation_in;
    [apply order_by_perm | symmetry; apply order_by_perm].
Qed.





(** *** Ids *)

Lemma NoDup_map_filter (p : row -> bool) (l : list row) :
  NoDup (map id l) -> NoDup (map id (filter p l)).
Proof.
  induction l as [|x l IH]; simpl; intros H; [constructor|].
  inversion H as [|? ? Hx Hl]; subst.
  destruct (p x); simpl; [|now apply IH].
  constructor; [|now apply IH].
  intros Hin. apply Hx. apply in_map_iff in Hin as (y & Hy & Hin).
  apply filter_In in Hin as [Hin _]. rewrite <- Hy. now apply in_map.
Qed.

Lemma max_rowid_bound (l : list row) (m : Z) :
  0 <= m -> Forall (fun r => id r <= m) l -> max_rowid l <= m.
Proof.
  unfold max_rowid. intros Hm H.
  induction H as [|x l Hx H IH]; simpl; lia.
Qed.

(** In a well-formed file the next id is the sequence value plus one. *)
Lemma top_is_sequence (d : db) :
  wf d -> Z.max (max_rowid (customers d)) (sqlite_sequence d) = sqlite_sequence d.
Proof.
  intros (_ & Hb & Hs). apply Z.max_r.
  apply max_rowid_bound; [lia|].
  eapply Forall_impl; [|exact Hb]. simpl. lia.
Qed.

Lemma wf_empty : wf empty_db.
Proof.
  unfold wf, empty_db, MAX_ROWID. simpl.
  repeat split; try constructor; lia.
Qed.

Lemma wf_init (file : option db) :
  (forall d, file = Some d -> wf d) -> wf (init_db file).
Proof.
  destruct file as [d|]; simpl; intros H; [now apply H | apply wf_empty].
Qed.

Lemma insert_ok (rec : customer) (now : Z) (d : db) :
  wf d -> sqlite_sequence d < MAX_ROWID ->
  insert_customer rec now d =
  Ok {| customers := customers d ++
                     [{| id := sqlite_sequence d + 1; fields := rec;
                         created_at := now |}];
        sqlite_sequence := sqlite_sequence d + 1 |}.
Proof.
  intros Hwf Hlt. unfold insert_customer.
  rewrite (top_is_sequence d Hwf).
  destruct (Z.leb_spec MAX_ROWID (sqlite_sequence d)); [lia|]. reflexivity.
Qed.

Lemma insert_full (rec : customer) (now : Z) (d : db) :
  wf d -> sqlite_sequence d = MAX_ROWID ->
  exists e, insert_customer rec now d = Raise e.
Proof.
  intros Hwf Heq. unfold insert_customer.
  rewrite (top_is_sequence d Hwf), Heq, Z.leb_refl. eauto.
Qed.

Lemma wf_insert (rec : customer) (now : Z) (d d' : db) :
  wf d -> insert_customer rec now d = Ok d' -> wf d'.
Proof.
  intros Hwf H. pose proof Hwf as (Hnd & Hb & Hs).
  destruct (Z.eq_dec (sqlite_sequence d) MAX_ROWID) as [Heq | Hne].
  - destruct (insert_full rec now d Hwf Heq) as [e He]. congruence.
  - rewrite insert_ok in H by (assumption || lia).
    injection H as <-. unfold wf. simpl. repeat split; try lia.
    + rewrite map_app. simpl.
      apply NoDup_app; [assumption | repeat constructor; now intros [] |].
      intros x Hx [<- | []]. apply in_map_iff in Hx as (r & Hr & Hin).
      rewrite Forall_forall in Hb. specialize (Hb r Hin). lia.
    + apply Forall_app. split.
      * eapply Forall_impl; [|exact Hb]. simpl. lia.
      * repeat constructor; simpl; lia.
Qed.

Lemma wf_delete (row_id : Z) (d d' : db) :
  wf d -> delete_customer row_id d = Ok d' -> wf d'.
Proof.
  intros (Hnd & Hb & Hs) H. unfold delete_customer in H.
  destruct (in_int64 row_id); [|discriminate]. injection H as <-.
  unfold wf. simpl. repeat split; try lia.
  - now apply NoDup_map_filter.
  - apply Forall_forall. intros r Hr. apply filter_In in Hr as [Hr _].
    rewrite Forall_forall in Hb. now apply Hb.
Qed.

(** Every file that a session produces is well formed, and no id in
    the log exceeds the sequence value. *)
Lemma wf_step (st : db * list Z) (c : call) :
  wf (fst st) -> wf (fst (step st c)).
Proof.
  destruct st as [d log]. simpl. intros Hwf. destruct c as [|rec now|row_id].
  - exact Hwf.
  - destruct (insert_customer rec now d) eqn:H; simpl; [|assumption].
    eapply wf_insert; eassumption.
  - destruct (delete_customer row_id d) eqn:H; simpl; [|assumption].
    eapply wf_delete; eassumption.
Qed.

Lemma wf_fold (calls : list call) (st : db * list Z) :
  wf (fst st) -> wf (fst (fold_left step calls st)).
Proof.
  revert st. induction calls as [|c calls IH]; simpl; intros st H; [assumption|].
  apply IH. now apply wf_step.
Qed.

Lemma wf_run (calls : list call) : wf (fst (run calls)).
Proof. apply wf_fold. simpl. apply wf_empty. Qed.

End RepoFacts.

(** ** The record validator *)

Module ValidatorProps.

Import Text Regex Sqlite App Spec.

(** *** What the two patterns accept *)









(** The cases of the specification: a nine-digit zip needs its hyphen, a
    state has two letters. *)
Example patterns_on_samples :
  re_match ZIP_RE "85212" = true
  /\ re_match ZIP_RE "85212-1234" = true
  /\ re_match ZIP_RE "852121234" = false
  /\ re_match ZIP_RE "85212-123" = false
  /\ re_match STATE_RE "AZ" = true
  /\ re_match STATE_RE "az" = true
  /\ re_match STATE_RE "A" = false
  /\ re_match STATE_RE "ARZ" = false
  /\ re_match STATE_RE "A1" = false.
Proof. repeat split; reflexivity. Qed.

(** *** The validator *)




End ValidatorProps.

(** ** The repository *)

Module RepositoryProps.

Import Text Sqlite App Spec Samples TextFacts LikeFacts RepoFacts.

Local Open Scope Z_scope.

Lemma filter_all (A : Type) (p : A -> bool) (l : list A) :
  (forall x, In x l -> p x = true) -> filter p l = l.
Proof.
  induction l as [|x l IH]; simpl; intros H; [reflexivity|].
  rewrite (H x) by now left. f_equal. apply IH. intros y Hy. apply H. now right.
Qed.


Lemma fetch_members (filters : option filter_dict) (d : db) (r : row) :
  In r (fetch_customers filters d) -> In r (customers d).
Proof.
  unfold fetch_customers. intros H.
  apply In_order_by, filter_In in H. tauto.
Qed.

(** *** Filters *)







Lemma where_clauses_omit_empty (f : filter_dict) :
  where_clauses (Some (omit_empty f)) = where_clauses (Some f).
Proof.
  unfold where_clauses, omit_empty. cbn [get_name get_city get_state].
  assert (P : forall v, present (present v) = present v).
  { intros [s|]; [|reflexivity]. simpl.
    destruct (truthy s) eqn:E; simpl; now rewrite ?E. }
  now rewrite !P.
Qed.

(** C10.  A filter bound to the empty string behaves as an omitted one:
    removing the empty entries from any filter dict does not change the
    listing, and the dict with all three filters empty gives the listing
    of no filters. *)
Theorem empty_filter_is_no_filter (d : db) :
  (forall f, fetch_customers (Some f) d = fetch_customers (Some (omit_empty f)) d)
  /\ fetch_customers (Some all_empty) d = fetch_customers None d.
Proof.
  split.
  - intros f. unfold fetch_customers. now rewrite where_clauses_omit_empty.
  - reflexivity.
Qed.

(** *** Order, create, delete *)









(** *** Ids over a session *)

Lemma assigned_insert (rec : customer) (now : Z) (d : db) :
  wf d -> sqlite_sequence d < MAX_ROWID ->
  forall d', insert_customer rec now d = Ok d' ->
  assigned d d' = [sqlite_sequence d + 1]
  /\ sqlite_sequence d' = sqlite_sequence d + 1
  /\ customers d' = customers d
                    ++ [{| id := sqlite_sequence d + 1; fields := rec;
                           created_at := now |}].
Proof.
  intros Hwf Hlt d' H. rewrite insert_ok in H by assumption.
  injection H as <-. unfold assigned. cbn [customers sqlite_sequence].
  rewrite skipn_app, skipn_all, Nat.sub_diag. repeat split.
Qed.

Lemma log_ok_step (st : db * list Z) (c : call) :
  log_ok st -> log_ok (step st c).
Proof.
  destruct st as [d log]. intros (Hwf & Hs & Hb & Hin). simpl in *.
  destruct c as [|rec now|row_id]; simpl.
  - split; [|split; [|split]]; assumption.
  - destruct (insert_customer rec now d) as [d'|e] eqn:H;
      [|split; [|split; [|split]]; assumption].
    assert (Hwf' : wf d') by (eapply wf_insert; eassumption).
    destruct (Z.eq_dec (sqlite_sequence d) MAX_ROWID) as [Heq | Hne].
    { destruct (insert_full rec now d Hwf Heq) as [e He]. congruence. }
    assert (Hlt : sqlite_sequence d < MAX_ROWID)
      by (destruct Hwf as (_ & _ & ?); lia).
    destruct (assigned_insert rec now d Hwf Hlt d' H) as (Ha & Hq & Hc).
    rewrite Ha. simpl. split; [|split; [|split]].
    + exact Hwf'.
    + cbn [fst snd]. constructor; [assumption|].
      eapply Forall_impl; [|exact Hb]. simpl. lia.
    + cbn [fst snd]. constructor; [rewrite Hq; destruct Hwf as (_ & _ & ?); lia|].
      eapply Forall_impl; [|exact Hb]. simpl. intros i Hi. rewrite Hq. lia.
    + cbn [fst snd]. rewrite Hc. apply Forall_app. split.
      * eapply Forall_impl; [|exact Hin]. simpl. auto.
      * repeat constructor.
  - destruct (delete_customer row_id d) as [d'|e] eqn:H;
      [|split; [|split; [|split]]; assumption].
    assert (Hwf' : wf d') by (eapply wf_delete; eassumption).
    unfold delete_customer in H. destruct (in_int64 row_id); [|discriminate].
    injection H as <-. simpl in *. split; [|split; [|split]]; try assumption.
    apply Forall_forall. intros r Hr. apply filter_In in Hr as [Hr _].
    rewrite Forall_forall in Hin. now apply Hin.
Qed.

Lemma log_ok_fold (calls : list call) (st : db * list Z) :
  log_ok st -> log_ok (fold_left step calls st).
Proof.
  revert st. induction calls as [|c calls IH]; simpl; intros st H; [assumption|].
  apply IH. now apply log_ok_step.
Qed.

Lemma log_ok_run (calls : list call) : log_ok (run calls).
Proof.
  apply log_ok_fold. unfold log_ok. simpl.
  split; [apply wf_empty|]. repeat split; constructor.
Qed.

Lemma run_snoc (calls : list call) (c : call) :
  run (calls ++ [c]) = step (run calls) c.
Proof. unfold run. now rewrite fold_left_app. Qed.

(** C7.  Over every sequence of init, create and delete calls, starting
    from a missing file: the ids assigned so far, read from the most
    recent back, strictly decrease, so no id is assigned twice; every id
    in the table is one of them; and a create that follows assigns an id
    greater than every id assigned before, deleted or not. *)
Theorem ids_never_reused (calls : list call) :
  StronglySorted Z.gt (snd (run calls))
  /\ NoDup (snd (run calls))
  /\ Forall (fun r => In (id r) (snd (run calls))) (customers (fst (run calls)))
  /\ forall rec now d',
      insert_customer rec now (fst (run calls)) = Ok d' ->
      exists i,
        snd (run (calls ++ [Create rec now])) = i :: snd (run calls)
        /\ In i (map id (customers d'))
        /\ Forall (fun j => j < i) (snd (run calls)).
Proof.
  destruct (log_ok_run calls) as (Hwf & Hs & Hb & Hin).
  split; [exact Hs|]. split; [|split; [exact Hin|]].
  - clear -Hs. induction Hs as [|i l Hs IH Hi]; constructor; [|assumption].
    intros Hmem. rewrite Forall_forall in Hi. specialize (Hi i Hmem). lia.
  - intros rec now d' H.
    destruct (Z.eq_dec (sqlite_sequence (fst (run calls))) MAX_ROWID) as [Heq | Hne].
    { destruct (insert_full rec now _ Hwf Heq) as [e He]. congruence. }
    assert (Hlt : sqlite_sequence (fst (run calls)) < MAX_ROWID)
      by (destruct Hwf as (_ & _ & ?); lia).
    destruct (assigned_insert rec now _ Hwf Hlt d' H) as (Ha & Hq & Hc).
    exists (sqlite_sequence (fst (run calls)) + 1).
    rewrite run_snoc. destruct (run calls) as [d log]. simpl in *.
    rewrite H, Ha. simpl. repeat split.
    + rewrite Hc, map_app. apply in_or_app. right. now left.
    + eapply Forall_impl; [|exact Hb]. simpl. lia.
Qed.

(** A session that creates two rows, deletes the second and
    creates a third: the third gets id 3, not the freed id 2. *)
Lemma ids_never_reused_witness :
  exists i,
    snd (run ([Init; Create jane 1700000000; Create omar 1700000000; Remove 2]
              ++ [Create omar 1700000060]))
    = i :: [2; 1]
    /\ In i [1; 3]
    /\ Forall (fun j => j < i) [2; 1].
Proof.
  destruct (ids_never_reused
              [Init; Create jane 1700000000; Create omar 1700000000; Remove 2])
    as (_ & _ & _ & H).
  exact (H omar 1700000060
           {| customers := [jane_row;
                            {| id := 3; fields := omar; created_at := 1700000060 |}];
              sqlite_sequence := 3 |}
           eq_refl).
Defined.

End RepositoryProps.

(** ** The aggregator *)

Module AggregatorProps.

Import Sqlite Float App Spec Samples.

Local Open Scope Q_scope.








(** What the hypothesis on the estimated values leaves out: a record with
    no loan on no value has the ratio NaN, which [mean] skips, so the
    average is taken over the other records only. *)
Example mean_skips_nan :
  Pandas.mean (Pandas.clip_upper 5 (Pandas.div (loans [zero_on_zero; half])
                                               (values [zero_on_zero; half])))
  = Pandas.mean (Pandas.clip_upper 5 (Pandas.div (loans [half]) (values [half]))).
Proof. reflexivity. Qed.



End AggregatorProps.

(** ** The Add Customer form *)

Module PageProps.

Import Text Regex Sqlite App Spec Samples TextFacts RepoFacts.

Lemma validate_message_truthy (c : customer) (m : string) :
  validate_inputs c = Some m -> truthy m = true.
Proof.
  unfold validate_inputs.
  repeat match goal with
         | |- context [if ?b then _ else _] => destruct b
         end; intros [= <-]; reflexivity.
Qed.

(** The handler admits every input whose trimmed required fields are
    non-empty and whose dict passes the validator, as long as the id space
    is not used up. *)
Lemma add_customer_form_admits (input : customer) (now : Z) (d : db) :
  wf d -> (sqlite_sequence d < MAX_ROWID)%Z ->
  Forall (fun v => v <> EmptyString) (required (form_record input)) ->
  validate_inputs (form_record input) = None ->
  exists body,
    add_customer_form input now d
    = (st_success body,
       {| customers := customers d
                       ++ [{| id := sqlite_sequence d + 1;
                              fields := form_record input;
                              created_at := now |}];
          sqlite_sequence := sqlite_sequence d + 1 |}).
Proof.
  intros Hwf Hlt Hreq Hval. unfold add_customer_form.
  change {| last_name := strip (last_name input);
            first_name := strip (first_name input);
            street := strip (street input);
            city := strip (city input);
            state := upper (strip (state input));
            zip_code := strip (zip_code input);
            loan_amount := loan_amount input;
            estimated_value := estimated_value input;
            occupancy_type := occupancy_type input |}
    with (form_record input).
  fold (required (form_record input)).
  assert (E : existsb (fun v => negb (truthy v)) (required (form_record input))
              = false).
  { induction Hreq as [|v l Hv _ IH]; simpl; [reflexivity|].
    apply truthy_true in Hv. now rewrite Hv, IH. }
  rewrite E, Hval, insert_ok by assumption. eexists. reflexivity.
Qed.



End PageProps.

(** ** main.py and the delete button *)

Module MainProps.

Import Text Sqlite Spec Samples RepoFacts.
Import Main.

(** The statement text of [update_user] without the comma before WHERE
    compiles and changes the row it names. *)
Example update_without_comma :
  execute "UPDATE users SET name = ?, age = ? WHERE id = ?"
          (PTuple [PStr "Anna"; PStr "31"; PInt 1]) [ann; bob]
  = Ok [{| id := 1; name := VText "Anna"; age := VInt 31 |}; bob].
Proof. reflexivity. Qed.

(** The statement of [delete_user] with a one-element tuple deletes the
    row; so does a one-character string, which is a sequence of one. *)
Example delete_with_tuple :
  execute "DELETE FROM users WHERE id = ?" (PTuple [PInt 2]) [ann; bob] = Ok [ann]
  /\ delete_user (PStr "2") [ann; bob] = Ok [ann].
Proof. split; reflexivity. Qed.

Lemma delete_zero_unchanged (d : App.db) :
  wf d -> App.delete_customer 0 d = Ok d.
Proof.
  intros (_ & Hb & _). unfold App.delete_customer. simpl.
  destruct d as [rows seq]. simpl in *. f_equal. f_equal.
  induction Hb as [|r rows Hr Hb IH]; simpl; [reflexivity|].
  destruct (Z.eqb_spec (App.id r) 0) as [E | E]; [lia|]. simpl. now rewrite IH.
Qed.

(** C8.  [update_user] raises for every input, at the point where the
    statement is compiled: the comma before WHERE is a syntax error.
    [delete_user] called with an integer raises when the parameters are
    bound, since an integer is not a sequence.  Neither call changes the
    table.  The delete button of the page passes [int()], which is 0, so
    what it does never depends on the selected id, and on a table
    produced by any session it deletes nothing. *)
Theorem update_and_delete_broken :
  (forall id_ name_ age_ d,
      update_user id_ name_ age_ d
      = Raise (OperationalError
                 ("near " ++ String dquote "WHERE" ++ String dquote ": syntax error"))
      /\ file_after d (update_user id_ name_ age_ d) = d)
  /\ (forall z d,
        delete_user (PInt z) d
        = Raise (ProgrammingError "parameters are of unsupported type")
        /\ file_after d (delete_user (PInt z) d) = d)
  /\ (forall did did' d,
        snd (App.delete_selected_row did d) = snd (App.delete_selected_row did' d))
  /\ (forall calls did,
        snd (App.delete_selected_row did (fst (run calls))) = fst (run calls)).
Proof.
  split; [|split; [|split]].
  - intros id_ name_ age_ d. split; reflexivity.
  - intros z d. split; reflexivity.
  - intros did did' d. unfold App.delete_selected_row.
    destruct (App.delete_customer 0 d); reflexivity.
  - intros calls did. unfold App.delete_selected_row.
    rewrite delete_zero_unchanged by apply wf_run. reflexivity.
Qed.

End MainProps.

(** ** More about the listing *)

Module ListingFacts.

Import Text Sqlite App Spec Shapes TextFacts LikeFacts RepoFacts.

Local Open Scope Z_scope.

Lemma comes_first_total (a b : row) :
  comes_first a b = false -> comes_first b a = true.
Proof.
  unfold comes_first. intros H. apply orb_false_iff in H as [H1 H2].
  apply Z.ltb_ge in H1. apply andb_false_iff in H2.
  destruct (Z.ltb_spec (created_at a) (created_at b)) as [Hlt | Hge];
    [reflexivity|]. simpl.
  assert (E : created_at b = created_at a) by lia.
  rewrite E, Z.eqb_refl. simpl. apply Z.leb_le.
  destruct H2 as [H2 | H2]; [apply Z.eqb_neq in H2; lia | apply Z.leb_gt in H2; lia].
Qed.

Lemma comes_first_trans (a b c : row) :
  comes_first a b = true -> comes_first b c = true -> comes_first a c = true.
Proof.
  unfold comes_first. intros H1 H2.
  apply orb_true_iff in H1. apply orb_true_iff in H2. apply orb_true_iff.
  rewrite !andb_true_iff, !Z.ltb_lt, !Z.eqb_eq, !Z.leb_le in *. lia.
Qed.

Lemma place_at_head (r : row) (l : list row) :
  Forall (no_later r) l -> place r l = r :: l.
Proof.
  intros H. destruct H as [|x l Hx _]; simpl; [reflexivity|].
  unfold no_later in Hx. now rewrite Hx.
Qed.

Lemma place_keeps_order (r : row) (l : list row) :
  StronglySorted no_later l -> StronglySorted no_later (place r l).
Proof.
  induction 1 as [|x l Hs IH Hx]; simpl; [repeat constructor|].
  destruct (comes_first r x) eqn:E.
  - constructor; [now constructor|]. constructor; [exact E|].
    eapply Forall_impl; [|exact Hx]. intros y Hy.
    eapply comes_first_trans; eassumption.
  - constructor; [exact IH|].
    apply Forall_forall. intros y Hy.
    apply (Permutation_in _ (place_perm r l)) in Hy as [<- | Hy].
    + now apply comes_first_total.
    + rewrite Forall_forall in Hx. now apply Hx.
Qed.

Lemma order_by_keeps_order (l : list row) : StronglySorted no_later (order_by l).
Proof.
  induction l as [|x l IH]; simpl; [constructor|].
  now apply place_keeps_order.
Qed.

Lemma filter_keeps_order (p : row -> bool) (l : list row) :
  StronglySorted no_later l -> StronglySorted no_later (filter p l).
Proof.
  induction 1 as [|x l Hs IH Hx]; simpl; [constructor|].
  destruct (p x); [|exact IH]. constructor; [exact IH|].
  apply Forall_forall. intros y Hy. apply filter_In in Hy as [Hy _].
  rewrite Forall_forall in Hx. now apply Hx.
Qed.

(** Dropping rows from a sorted list and placing a row commute. *)
Lemma filter_place (p : row -> bool) (r : row) (l : list row) :
  StronglySorted no_later l ->
  filter p (place r l) = if p r then place r (filter p l) else filter p l.
Proof.
  induction 1 as [|x l Hs IH Hx]; simpl.
  - destruct (p r); reflexivity.
  - destruct (comes_first r x) eqn:E.
    + simpl. destruct (p r) eqn:Er; [|reflexivity].
      symmetry. apply (place_at_head r (if p x then x :: filter p l else filter p l)).
      assert (Hall : Forall (no_later r) (x :: l)).
      { constructor; [exact E|]. eapply Forall_impl; [|exact Hx].
        intros y Hy. eapply comes_first_trans; eassumption. }
      change (if p x then x :: filter p l else filter p l) with (filter p (x :: l)).
      apply Forall_forall. intros y Hy. apply filter_In in Hy as [Hy _].
      rewrite Forall_forall in Hall. now apply Hall.
    + simpl. rewrite IH. destruct (p x), (p r); simpl; rewrite ?E; reflexivity.
Qed.

Lemma filter_order_by (p : row -> bool) (l : list row) :
  filter p (order_by l) = order_by (filter p l).
Proof.
  induction l as [|x l IH]; [reflexivity|].
  change (order_by (x :: l)) with (place x (order_by l)).
  rewrite filter_place by apply order_by_keeps_order.
  simpl. destruct (p x); [|exact IH].
  change (order_by (x :: filter p l)) with (place x (order_by (filter p l))).
  now rewrite IH.
Qed.

Lemma filter_filter (p q : row -> bool) (l : list row) :
  filter p (filter q l) = filter (fun r => q r && p r) l.
Proof.
  induction l as [|x l IH]; simpl; [reflexivity|].
  destruct (q x); simpl; [destruct (p x)|]; now rewrite IH.
Qed.

End ListingFacts.

Module RepositoryMore.

Import Text Sqlite App Spec Samples Shapes TextFacts LikeFacts RepoFacts ListingFacts.

Local Open Scope Z_scope.

Lemma fetch_unfiltered (d : db) : fetch_customers None d = order_by (customers d).
Proof.
  unfold fetch_customers. simpl. f_equal.
  induction (customers d) as [|x l IH]; simpl; congruence.
Qed.

Lemma fetch_as_filter (filters : option filter_dict) (d : db) :
  fetch_customers filters d = filter (passes filters) (fetch_customers None d).
Proof.
  rewrite fetch_unfiltered, filter_order_by. reflexivity.
Qed.


Lemma passes_parts (f : filter_dict) (r : row) :
  passes (Some f) r
  = passes (Some (name_part f)) r
    && passes (Some (city_part f)) r
    && passes (Some (state_part f)) r.
Proof.
  unfold passes, where_clauses, name_part, city_part, state_part.
  cbn [get_name get_city get_state present].
  rewrite !app_nil_r, !forallb_app. cbn [app forallb].
  now rewrite andb_assoc.
Qed.


(** *** Case *)

Lemma lower_upper_char (c : ascii) : lower_char (upper_char c) = lower_char c.
Proof. destruct c as [[] [] [] [] [] [] [] []]; reflexivity. Qed.

Lemma upper_char_percent (c : ascii) :
  Ascii.eqb (upper_char c) "%" = Ascii.eqb c "%".
Proof. destruct c as [[] [] [] [] [] [] [] []]; reflexivity. Qed.

Lemma upper_char_underscore (c : ascii) :
  Ascii.eqb (upper_char c) "_" = Ascii.eqb c "_".
Proof. destruct c as [[] [] [] [] [] [] [] []]; reflexivity. Qed.

Lemma like_cons (c : ascii) (p s : string) :
  like (String c p) s =
  if Ascii.eqb c "%" then
    like p s || match s with
                | EmptyString => false
                | String _ s' => like (String "%" p) s'
                end
  else if Ascii.eqb c "_" then
    match s with EmptyString => false | String _ s' => like p s' end
  else
    match s with
    | EmptyString => false
    | String d s' => Ascii.eqb (lower_char c) (lower_char d) && like p s'
    end.
Proof.
  destruct (Ascii.eqb_spec c "%") as [-> | H].
  - apply like_star.
  - simpl. apply Ascii.eqb_neq in H. rewrite H. reflexivity.
Qed.

Lemma like_upper_pattern (p s : string) : like (upper p) s = like p s.
Proof.
  revert s. induction p as [|c p IH]; intros s; [reflexivity|].
  cbn [upper]. rewrite (like_cons c), (like_cons (upper_char c)).
  rewrite upper_char_percent, upper_char_underscore, lower_upper_char.
  destruct (Ascii.eqb_spec c "%") as [-> | Hp].
  - induction s as [|d s IHs]; [now rewrite IH|].
    rewrite IH. f_equal.
    change (String (upper_char "%") (upper p)) with (upper (String "%" p)) in IHs.
    rewrite (like_cons "%" (upper p)), (like_cons "%" p). simpl Ascii.eqb.
    cbv iota. exact IHs.
  - destruct (Ascii.eqb c "_"); destruct s; rewrite ?IH; reflexivity.
Qed.

Lemma like_upper_subject (p s : string) : like p (upper s) = like p s.
Proof.
  revert s. induction p as [|c p IH]; intros s; [destruct s; reflexivity|].
  rewrite !(like_cons c).
  destruct (Ascii.eqb c "%").
  - induction s as [|d s IHs]; [apply (f_equal (fun b => b || false)), (IH EmptyString)|].
    cbn [upper]. rewrite <- (IH (String d s)). cbn [upper]. f_equal.
    rewrite !(like_cons "%" p). simpl Ascii.eqb. cbv iota. exact IHs.
  - destruct (Ascii.eqb c "_"); destruct s as [|d s]; cbn [upper];
      rewrite ?IH, ?lower_upper_char; reflexivity.
Qed.

Lemma upper_append (a b : string) : upper (a ++ b) = (upper a ++ upper b)%string.
Proof. induction a as [|c a IH]; simpl; [reflexivity|]. now rewrite IH. Qed.

Lemma truthy_upper (s : string) : truthy (upper s) = truthy s.
Proof. destruct s; reflexivity. Qed.

(** X10.  The name and city filters ignore ASCII case, in the filter string and
    in the stored text: LIKE folds both. *)
Theorem name_and_city_filters_ignore_case (n : string) (d : db) :
  fetch_customers (Some (only_name (upper n))) d = fetch_customers (Some (only_name n)) d
  /\ fetch_customers (Some (only_city (upper n))) d = fetch_customers (Some (only_city n)) d
  /\ forall p s, like p (upper s) = like p s.
Proof.
  assert (E : forall s, like ("%" ++ upper n ++ "%") s = like ("%" ++ n ++ "%") s).
  { intros s. rewrite <- (like_upper_pattern ("%" ++ n ++ "%")).
    rewrite !upper_append. reflexivity. }
  split; [|split].
  - unfold fetch_customers. f_equal. apply filter_ext. intros r.
    unfold where_clauses, only_name. cbn [get_name get_city get_state present].
    rewrite truthy_upper. destruct (truthy n); [|reflexivity].
    cbn [app forallb]. now rewrite !E.
  - unfold fetch_customers. f_equal. apply filter_ext. intros r.
    unfold where_clauses, only_city. cbn [get_name get_city get_state present].
    rewrite truthy_upper. destruct (truthy n); [|reflexivity].
    cbn [app forallb]. now rewrite !E.
  - intros p s. apply like_upper_subject.
Qed.

(** *** Create and delete *)

Lemma in_int64_id (z : Z) : 0 <= z <= MAX_ROWID -> in_int64 z = true.
Proof.
  unfold in_int64, MAX_ROWID. intros H.
  apply andb_true_iff. split; apply Z.leb_le; lia.
Qed.

(** X11.  Deleting the row that was just created gives back the rows, and with
    them every listing, but not the id: the sequence stays advanced. *)
Theorem delete_undoes_create (rec : customer) (now : Z) (d : db) :
  wf d -> sqlite_sequence d < MAX_ROWID ->
  exists d1 d2,
    insert_customer rec now d = Ok d1
    /\ delete_customer (sqlite_sequence d + 1) d1 = Ok d2
    /\ customers d2 = customers d
    /\ sqlite_sequence d2 = sqlite_sequence d + 1
    /\ forall filters, fetch_customers filters d2 = fetch_customers filters d.
Proof.
  intros Hwf Hlt. pose proof Hwf as (_ & Hb & Hs).
  rewrite (insert_ok rec now d Hwf Hlt). eexists. eexists.
  split; [reflexivity|].
  unfold delete_customer. rewrite in_int64_id by lia.
  split; [reflexivity|]. cbn [customers sqlite_sequence].
  assert (E : filter (fun r => negb (id r =? sqlite_sequence d + 1))
                (customers d ++
                 [{| id := sqlite_sequence d + 1; fields := rec; created_at := now |}])
              = customers d).
  { rewrite filter_app. cbn [filter id]. rewrite Z.eqb_refl. cbn [negb].
    rewrite app_nil_r. apply RepositoryProps.filter_all. intros r Hr.
    rewrite Forall_forall in Hb. specialize (Hb r Hr).
    apply negb_true_iff, Z.eqb_neq. lia. }
  split; [exact E|]. split; [reflexivity|].
  intros filters. unfold fetch_customers. cbn [customers]. now rewrite E.
Qed.

Lemma delete_undoes_create_witness :
  exists d1 d2,
    insert_customer omar 1700000060 one_row = Ok d1
    /\ delete_customer 2 d1 = Ok d2
    /\ customers d2 = [jane_row]
    /\ sqlite_sequence d2 = 2.
Proof.
  assert (Hwf : wf one_row).
  { unfold wf, one_row, MAX_ROWID. simpl. repeat split; try lia.
    - repeat constructor. simpl. tauto.
    - repeat constructor; simpl; lia. }
  assert (Hlt : sqlite_sequence one_row < MAX_ROWID) by (vm_compute; reflexivity).
  destruct (delete_undoes_create omar 1700000060 one_row Hwf Hlt)
    as (d1 & d2 & H1 & H2 & H3 & H4 & _).
  exists d1, d2. repeat split; assumption.
Defined.

(** X12.  A listing after a delete is the listing before it without the rows of
    that id, under any filters. *)
Theorem listing_after_delete (filters : option filter_dict) (row_id : Z) (d : db) :
  in_int64 row_id = true ->
  exists d',
    delete_customer row_id d = Ok d'
    /\ fetch_customers filters d'
       = filter (fun r => negb (id r =? row_id)) (fetch_customers filters d).
Proof.
  intros Hr. unfold delete_customer. rewrite Hr. eexists.
  split; [reflexivity|].
  unfold fetch_customers. cbn [customers].
  rewrite filter_order_by, !filter_filter. f_equal.
  apply filter_ext. intros r. apply andb_comm.
Qed.

Lemma listing_after_delete_witness :
  exists d',
    delete_customer 1 two_rows = Ok d'
    /\ fetch_customers (Some (only_state "nv")) d' = [omar_row]
    /\ fetch_customers None d' = [omar_row].
Proof.
  destruct (listing_after_delete (Some (only_state "nv")) 1 two_rows eq_refl)
    as (d' & H & Hl).
  exists d'. split; [exact H|]. split; [rewrite Hl; reflexivity|].
  vm_compute in H. injection H as <-. reflexivity.
Defined.



End RepositoryMore.

(** ** More about the validator and the form *)

Module FormMore.

Import Text Regex Sqlite App Spec Samples Shapes Page.
Import TextFacts RepoFacts ValidatorProps.







Lemma lstrip_blank (s : string) : blank s = true -> lstrip s = EmptyString.
Proof.
  unfold blank. induction s as [|c s IH]; simpl; [reflexivity|].
  intros H. apply andb_true_iff in H as [Hc Hs]. rewrite Hc. now apply IH.
Qed.

Lemma strip_empty_iff (s : string) : strip s = EmptyString <-> blank s = true.
Proof.
  split.
  - unfold strip, blank. induction s as [|c s IH]; simpl; [reflexivity|].
    destruct (isspace c) eqn:Hc; [exact IH|].
    rewrite rstrip_not_space_head by assumption. discriminate.
  - intros H. unfold strip. now rewrite lstrip_blank.
Qed.


(** *** What the validator lets through *)


(** *** What the form handler does to the file *)

Lemma form_outcome (input : customer) (now : Z) (d : db) :
  (exists body, add_customer_form input now d = (st_error body, d))
  \/ (validate_inputs (form_record input) = None
      /\ Forall (fun v => v <> EmptyString) (required (form_record input))
      /\ exists body top,
          add_customer_form input now d
          = (st_success body,
             {| customers := customers d
                             ++ [{| id := top; fields := form_record input;
                                    created_at := now |}];
                sqlite_sequence := top |})).
Proof.
  unfold add_customer_form.
  change {| last_name := strip (last_name input);
            first_name := strip (first_name input);
            street := strip (street input);
            city := strip (city input);
            state := upper (strip (state input));
            zip_code := strip (zip_code input);
            loan_amount := loan_amount input;
            estimated_value := estimated_value input;
            occupancy_type := occupancy_type input |}
    with (form_record input).
  fold (required (form_record input)).
  destruct (existsb _ _) eqn:Hreq; [left; eauto|].
  destruct (validate_inputs (form_record input)) as [msg|] eqn:Hval.
  { rewrite (PageProps.validate_message_truthy _ _ Hval). left. eauto. }
  unfold insert_customer. destruct (MAX_ROWID <=? _)%Z; [left; eauto|].
  right. split; [reflexivity|]. split; [|eauto].
  apply Forall_forall. intros v Hv. apply truthy_true.
  destruct (truthy v) eqn:E; [reflexivity|].
  assert (existsb (fun v => negb (truthy v)) (required (form_record input)) = true)
    by (apply existsb_exists; exists v; now rewrite E).
  congruence.
Qed.

(** X3.  A submission that is refused, for whatever reason, leaves the file
    as it was; one that is accepted appends one row and touches no
    other. *)
Theorem form_never_loses_rows (input : customer) (now : Z) (d : db) :
  match add_customer_form input now d with
  | (st_error _, d') => d' = d
  | (st_success _, d') => exists new, customers d' = customers d ++ [new]
  end.
Proof.
  destruct (form_outcome input now d) as [(body & H) | (_ & _ & body & top & H)];
    rewrite H; cbn [customers]; [reflexivity | eexists; reflexivity].
Qed.







(** *** Required fields *)



End FormMore.

(** ** A session on the page *)

Module SessionMore.

Import Text Regex Sqlite App Spec Samples Shapes Page.
Import TextFacts RepoFacts FormMore.

Local Open Scope Z_scope.







End SessionMore.

(** ** More about the metrics *)

Module AggregatorMore.

Import Sqlite Float App Spec Samples Shapes Page.
Import RepoFacts AggregatorProps.

Local Open Scope Q_scope.

Lemma clip_at_most_5 (col : list xreal) :
  Forall at_most_5 (Pandas.clip_upper 5 col).
Proof.
  unfold Pandas.clip_upper. apply Forall_forall. intros y Hy.
  apply in_map_iff in Hy as (x & <- & _).
  destruct x as [q | | |]; simpl; try exact I; try discriminate.
  destruct (Qle_bool q 5) eqn:E; simpl; [now apply Qle_bool_iff | discriminate].
Qed.

Lemma count_cons (x : xreal) (l : list xreal) : count (x :: l) == count l + 1.
Proof.
  unfold count. cbn [List.length]. rewrite Nat2Z.inj_succ, <- Z.add_1_r.
  rewrite inject_Z_plus. reflexivity.
Qed.

Lemma count_nonneg (l : list xreal) : 0 <= count l.
Proof.
  unfold count. change 0 with (inject_Z 0). rewrite <- Zle_Qle. lia.
Qed.

Lemma fold_xadd_ninf (l : list xreal) :
  Forall (fun x => at_most_5 x /\ isnan x = false) l ->
  fold_left xadd l NInf = NInf.
Proof.
  induction 1 as [|x l [Hx Hn] _ IH]; simpl; [reflexivity|].
  destruct x; simpl in *; try contradiction; try discriminate; exact IH.
Qed.

(** Adding up values that are at most 5 gives minus infinity or a finite
    sum that is at most 5 per value. *)
Lemma fold_xadd_bound (l : list xreal) (a : Q) :
  Forall (fun x => at_most_5 x /\ isnan x = false) l ->
  fold_left xadd l (Fin a) = NInf
  \/ exists s, fold_left xadd l (Fin a) = Fin s /\ s <= a + 5 * count l.
Proof.
  intros H. revert a. induction H as [|x l [Hx Hn] H IH]; intros a.
  - right. exists a. split; [reflexivity|]. change (a <= a + 5 * 0). lra.
  - simpl. destruct x as [q | | |]; simpl in *;
      try contradiction; try discriminate.
    + destruct (IH (a + q)) as [E | (s & E & Hs)]; [now left|].
      right. exists s. split; [exact E|]. rewrite count_cons. lra.
    + left. now apply fold_xadd_ninf.
Qed.

Lemma mean_at_most_5 (col : list xreal) :
  Forall at_most_5 col -> at_most_5 (Pandas.mean col).
Proof.
  intros H. unfold Pandas.mean.
  set (kept := filter (fun x => negb (isnan x)) col).
  assert (Hk : Forall (fun x => at_most_5 x /\ isnan x = false) kept).
  { apply Forall_forall. intros x Hx. apply filter_In in Hx as [Hx Hn].
    rewrite Forall_forall in H. split; [now apply H|].
    now apply negb_true_iff. }
  destruct kept as [|k kept'] eqn:Ek; [exact I|]. rewrite <- Ek in *.
  fold (count kept).
  assert (Hpos : 0 < count kept).
  { rewrite Ek, count_cons. pose proof (count_nonneg kept'). lra. }
  destruct (fold_xadd_bound kept 0 Hk) as [E | (s & E & Hs)]; rewrite E.
  - exact I.
  - simpl. apply Qle_shift_div_r; [exact Hpos | lra].
Qed.

(** X6.  The average loan-to-value that the page shows never exceeds 500, and
    is never plus infinity, whatever the table holds: the clip at 5 caps
    every ratio before the mean is taken. *)
Theorem avg_ltv_never_above_500 (df : list row) (x : xreal) :
  avg_ltv (top_metrics df) = Some x ->
  x <> PInf /\ forall q, x = Fin q -> q <= 500.
Proof.
  unfold top_metrics. cbn [avg_ltv].
  destruct (List.length df); [discriminate|]. intros [= <-].
  pose proof (mean_at_most_5 _ (clip_at_most_5
                (Pandas.div (map (fun r => loan_amount (fields r)) df)
                            (map (fun r => estimated_value (fields r)) df)))) as H.
  destruct (Pandas.mean _) as [m | | |]; simpl in *; try contradiction.
  - split; [discriminate|]. intros q [= <-]. lra.
  - split; [discriminate|]. discriminate.
  - split; [discriminate|]. discriminate.
Qed.

Lemma avg_ltv_never_above_500_witness :
  exists q,
    avg_ltv (top_metrics [half; eightfold; zero_on_zero]) = Some (Fin q)
    /\ q <= 500.
Proof.
  eexists. split; [vm_compute; reflexivity|].
  refine (proj2 (avg_ltv_never_above_500 [half; eightfold; zero_on_zero] _ _)
                _ eq_refl).
  vm_compute. reflexivity.
Defined.

(** *** The metrics of a table built through the page *)








End AggregatorMore.

(** ** The filter panel *)

Module PanelMore.

Import Text Sqlite App Spec Samples Shapes Page.
Import TextFacts LikeFacts FormMore RepositoryMore.

(** The test made for one box of the panel. *)
Lemma present_box (s : string) :
  present (if truthy s then Some (strip s) else None) = present (Some (strip s)).
Proof. destruct s; reflexivity. Qed.

Lemma passes_panel (apply : bool) (n c s : string) (r : row) :
  passes (Some (build_filters apply n c s)) r
  = if apply then
      passes (Some (only_name (strip n))) r
      && passes (Some (only_city (strip c))) r
      && passes (Some (only_state (strip s))) r
    else true.
Proof.
  rewrite passes_parts. unfold build_filters. destruct apply; [|reflexivity].
  unfold passes, where_clauses, name_part, city_part, state_part,
    only_name, only_city, only_state.
  cbn [get_name get_city get_state]. rewrite !present_box. reflexivity.
Qed.

Lemma pipeline_as_filter (apply : bool) (n c s : string) (d : db) :
  pipeline apply n c s d
  = filter (passes (Some (build_filters apply n c s))) (fetch_customers None d).
Proof. unfold pipeline. apply fetch_as_filter. Qed.

Lemma strip_unblank (s : string) : strip (unblank s) = strip s.
Proof.
  unfold unblank. destruct (blank s) eqn:B; [|reflexivity].
  apply strip_empty_iff in B. now rewrite B.
Qed.

(** X14.  The panel filters nothing until Apply Filters is pressed, and a box
    that is empty or holds only white space never filters: emptying such
    boxes does not change what is shown, and with all three blank the
    whole table is shown. *)
Theorem blank_boxes_do_not_filter (n c s : string) (d : db) :
  pipeline false n c s d = fetch_customers None d
  /\ pipeline true n c s d = pipeline true (unblank n) (unblank c) (unblank s) d
  /\ (blank n = true -> blank c = true -> blank s = true ->
      pipeline true n c s d = fetch_customers None d).
Proof.
  split; [|split].
  - reflexivity.
  - rewrite !pipeline_as_filter. apply filter_ext. intros r.
    rewrite !passes_panel, !strip_unblank. reflexivity.
  - intros Hn Hc Hs. rewrite pipeline_as_filter.
    apply RepositoryProps.filter_all. intros r _. rewrite passes_panel.
    apply strip_empty_iff in Hn, Hc, Hs. rewrite Hn, Hc, Hs. reflexivity.
Qed.

Lemma blank_boxes_do_not_filter_witness :
  pipeline true "   " " " "  " two_rows = [omar_row; jane_row].
Proof.
  rewrite (proj2 (proj2 (blank_boxes_do_not_filter "   " " " "  " two_rows))
             eq_refl eq_refl eq_refl).
  reflexivity.
Defined.

Lemma passes_name_case (n : string) (r : row) :
  passes (Some (only_name (upper n))) r = passes (Some (only_name n)) r.
Proof.
  unfold passes, where_clauses, only_name.
  cbn [get_name get_city get_state present]. rewrite truthy_upper.
  destruct (truthy n); [|reflexivity]. cbn [app forallb].
  assert (E : forall t, like ("%" ++ upper n ++ "%") t = like ("%" ++ n ++ "%") t).
  { intros t. rewrite <- (like_upper_pattern ("%" ++ n ++ "%")).
    rewrite !upper_append. reflexivity. }
  now rewrite !E.
Qed.

Lemma passes_city_case (n : string) (r : row) :
  passes (Some (only_city (upper n))) r = passes (Some (only_city n)) r.
Proof.
  unfold passes, where_clauses, only_city.
  cbn [get_name get_city get_state present]. rewrite truthy_upper.
  destruct (truthy n); [|reflexivity]. cbn [app forallb].
  assert (E : forall t, like ("%" ++ upper n ++ "%") t = like ("%" ++ n ++ "%") t).
  { intros t. rewrite <- (like_upper_pattern ("%" ++ n ++ "%")).
    rewrite !upper_append. reflexivity. }
  now rewrite !E.
Qed.

Lemma passes_state_case (s : string) (r : row) :
  passes (Some (only_state (upper s))) r = passes (Some (only_state s)) r.
Proof.
  unfold passes, where_clauses, only_state.
  cbn [get_name get_city get_state present]. rewrite truthy_upper.
  destruct (truthy s); [|reflexivity]. cbn [app forallb].
  now rewrite upper_idem.
Qed.

(** X15.  What the panel shows does not depend on the case of the letters typed
    in its boxes nor on white space around them. *)
Theorem filter_boxes_ignore_case_and_space (apply : bool) (n c s : string) (d : db) :
  pipeline apply n c s d
  = pipeline apply (upper (strip n)) (upper (strip c)) (upper (strip s)) d.
Proof.
  rewrite !pipeline_as_filter. apply filter_ext. intros r.
  rewrite !passes_panel. destruct apply; [|reflexivity].
  rewrite !strip_upper, !strip_idem.
  now rewrite passes_name_case, passes_city_case, passes_state_case.
Qed.

End PanelMore.

(** ** main.py: the routes and the table *)

Module FlaskMore.

Import Text Sqlite Main Flask Samples.

Local Open Scope Z_scope.

(** X17.  /update_user never works: a POST with both fields fails when the
    statement is compiled, a POST without one of them is a bad request, a
    GET returns nothing; in no case does the client get a page or a
    redirect, and the table is never changed. *)
Theorem update_route_never_succeeds
        (id_ : Z) (method : http_method) (form : form_data) (d : users_db) :
  snd (update_user_route id_ method form d) = d
  /\ (fst (update_user_route id_ method form d) = BadRequest
      \/ fst (update_user_route id_ method form d) = NoResponse
      \/ exists e, fst (update_user_route id_ method form d) = ServerError e).
Proof.
  unfold update_user_route. destruct method; [split; auto|].
  destruct (form_get "name" form) as [n|]; [|split; auto].
  destruct (form_get "age" form) as [a|]; [|split; auto].
  split; [reflexivity|]. right. right. eexists. reflexivity.
Qed.

(** *** [delete_user] with a string *)


Lemma bind_all_chars (s : string) :
  exists args, bind_all (chars s) = Ok args /\ List.length args = String.length s.
Proof.
  induction s as [|c s (args & E & L)]; simpl.
  - now exists [].
  - rewrite E. eexists. split; [reflexivity|]. simpl. now rewrite L.
Qed.

Lemma int_of_text_char (c : ascii) :
  int_of_text (String c EmptyString) = digit_id c.
Proof. destruct c as [[] [] [] [] [] [] [] []]; reflexivity. Qed.

Lemma delete_parses :
  parse (lex "DELETE FROM users WHERE id = ?" EmptyString)
  = Parsed (Delete "users" (Some "id")).
Proof. reflexivity. Qed.

Lemma delete_resolves :
  resolve (Delete "users" (Some "id")) = Ok (Delete "users" (Some "id")).
Proof. reflexivity. Qed.



(** *** [add_user] *)

Lemma fold_max_ge (l : list Z) (a : Z) :
  a <= fold_left Z.max l a /\ Forall (fun x => x <= fold_left Z.max l a) l.
Proof.
  revert a. induction l as [|x l IH]; intros a; simpl; [split; [lia | constructor]|].
  destruct (IH (Z.max a x)) as [H1 H2]. split; [lia|].
  constructor; [lia | exact H2].
Qed.

Lemma largest_id_bound (d : users_db) (m : Z) :
  largest_id d = Some m -> Forall (fun u => id u <= m) d.
Proof.
  destruct d as [|u rest]; [discriminate|]. simpl. intros [= <-].
  destruct (fold_max_ge (map id rest) (id u)) as [H1 H2].
  constructor; [exact H1|]. now rewrite Forall_map in H2.
Qed.

Lemma insert_by_id_perm (u : user) (d : users_db) :
  Permutation (insert_by_id u d) (u :: d).
Proof.
  induction d as [|x d IH]; simpl; [reflexivity|].
  destruct (id u <? id x); [reflexivity|]. rewrite IH. apply perm_swap.
Qed.

Lemma insert_by_id_order (u : user) (d : users_db) :
  rowid_order d -> ~ In (id u) (map id d) -> rowid_order (insert_by_id u d).
Proof.
  unfold rowid_order. intros Hs Hn.
  induction Hs as [|x d Hs IH Hx]; simpl; [repeat constructor|].
  destruct (Z.ltb_spec (id u) (id x)) as [Hlt | Hge].
  - constructor; [now constructor|]. constructor; [exact Hlt|].
    eapply Forall_impl; [|exact Hx]. simpl. lia.
  - simpl in Hn. constructor; [apply IH; tauto|].
    apply Forall_forall. intros y Hy.
    apply (Permutation_in _ (insert_by_id_perm u d)) in Hy as [<- | Hy].
    + assert (id x <> id u) by tauto. lia.
    + rewrite Forall_forall in Hx. now apply Hx.
Qed.

Lemma insert_by_id_last (u : user) (d : users_db) :
  Forall (fun x => id x < id u) d -> insert_by_id u d = d ++ [u].
Proof.
  induction 1 as [|x d Hx _ IH]; simpl; [reflexivity|].
  destruct (Z.ltb_spec (id u) (id x)); [lia|]. now rewrite IH.
Qed.

Lemma new_rowid_fresh (draws : list Z) (d : users_db) (i : Z) :
  new_rowid draws d = Some i -> ~ In i (map id d).
Proof.
  unfold new_rowid. destruct (largest_id d) as [m|] eqn:E.
  - destruct (m =? MAX_ROWID).
    + intros H. apply find_some in H as [_ H]. unfold unused in H.
      apply negb_true_iff in H. intros Hin.
      apply in_map_iff in Hin as (u & Hu & Hin).
      assert (existsb (fun u => id u =? i) d = true)
        by (apply existsb_exists; exists u; split; [exact Hin | now apply Z.eqb_eq]).
      congruence.
    + intros [= <-] Hin. apply in_map_iff in Hin as (u & Hu & Hin).
      pose proof (largest_id_bound d m E) as Hb.
      rewrite Forall_forall in Hb. specialize (Hb u Hin). lia.
  - destruct d; [|discriminate E]. intros _ [].
Qed.

Section AnyAffinity.

Variable integer_affinity : sqlval -> sqlval.

(** X19.  In a table in rowid order, a call of [add_user] that returns has
    added exactly one row and kept the others; the new row has an id that
    no row had, so the ids stay unique; the id is 1 in an empty table and
    otherwise one more than the largest id present, in which case the row
    comes last in [get_users]; a name given as a string is stored as
    it is. *)
Theorem add_user_adds_one_fresh_row
        (name_ age_ : pyval) (draws : list Z) (d d' : users_db) :
  rowid_order d ->
  add_user integer_affinity name_ age_ draws d = Ok d' ->
  exists u,
    Permutation (get_users d') (u :: get_users d)
    /\ rowid_order d'
    /\ ~ In (id u) (map id d)
    /\ (d = [] -> id u = 1)
    /\ (forall m, largest_id d = Some m -> m < MAX_ROWID ->
                  id u = m + 1 /\ get_users d' = get_users d ++ [u])
    /\ (forall s, name_ = PStr s -> name u = VText s).
Proof.
  intros Hs. unfold add_user, get_users.
  destruct (bind_all [name_; age_]) as [args|e] eqn:Eb; [|discriminate].
  destruct args as [|n [|a [|]]]; try discriminate.
  destruct (new_rowid draws d) as [i|] eqn:Ei; [|discriminate].
  intros [= <-].
  exists {| id := i; name := to_text n; age := integer_affinity a |}.
  pose proof (new_rowid_fresh draws d i Ei) as Hfresh.
  split; [apply insert_by_id_perm|].
  split; [now apply insert_by_id_order|].
  split; [exact Hfresh|]. cbn [id name].
  split; [|split].
  - intros ->. now injection Ei as <-.
  - intros m Hm Hlt. unfold new_rowid in Ei. rewrite Hm in Ei.
    destruct (Z.eqb_spec m MAX_ROWID); [lia|]. injection Ei as <-.
    split; [reflexivity|]. apply insert_by_id_last. cbn [id].
    eapply Forall_impl; [|exact (largest_id_bound d m Hm)]. simpl. lia.
  - intros s ->. simpl in Eb.
    destruct (bind_one age_); [|discriminate]. now injection Eb as <- _.
Qed.

(** X20.  /add_user answers 400 and stores nothing when the form lacks the name
    or the age.  With both present it checks nothing more: as long as the
    largest id is not the last 64-bit integer, the client is sent back to
    the index and the table has one more row at its end, numbered one
    after the largest id (1 in an empty table), with the name stored as
    typed, empty or not. *)
Theorem add_user_route_checks_only_presence
        (form : form_data) (draws : list Z) (d : users_db) :
  ((form_get "name" form = None \/ form_get "age" form = None) ->
   add_user_route integer_affinity form draws d = (BadRequest, d))
  /\ (forall name_ age_,
        form_get "name" form = Some name_ ->
        form_get "age" form = Some age_ ->
        (d = [] ->
         add_user_route integer_affinity form draws d
         = (Redirect "index",
            [{| id := 1; name := VText name_;
                age := integer_affinity (VText age_) |}]))
        /\ (forall m, largest_id d = Some m -> m < MAX_ROWID ->
            add_user_route integer_affinity form draws d
            = (Redirect "index",
               d ++ [{| id := m + 1; name := VText name_;
                        age := integer_affinity (VText age_) |}]))).
Proof.
  unfold add_user_route. split.
  - intros [H | H]; rewrite H; [reflexivity|].
    destruct (form_get "name" form); reflexivity.
  - intros n a Hn Ha. rewrite Hn, Ha. unfold add_user.
    cbn [bind_all bind_one]. split.
    + intros ->. reflexivity.
    + intros m Hm Hlt. unfold new_rowid. rewrite Hm.
      destruct (Z.eqb_spec m MAX_ROWID); [lia|].
      rewrite insert_by_id_last; [reflexivity|]. cbn [id].
      eapply Forall_impl; [|exact (largest_id_bound d m Hm)]. simpl. lia.
Qed.

Lemma filter_insert_by_id (u : user) (d : users_db) :
  ~ In (id u) (map id d) ->
  filter (fun x => negb (id x =? id u)) (insert_by_id u d) = d.
Proof.
  induction d as [|x d IH]; simpl; intros Hn.
  - now rewrite Z.eqb_refl.
  - assert (Hx : (id x =? id u) = false) by (apply Z.eqb_neq; tauto).
    destruct (id u <? id x); simpl.
    + rewrite Z.eqb_refl, Hx. simpl. f_equal.
      clear IH Hx. induction d as [|y d IHd]; simpl; [reflexivity|].
      assert (Hy : (id y =? id u) = false)
        by (apply Z.eqb_neq; simpl in Hn; tauto).
      rewrite Hy. simpl. f_equal. apply IHd. simpl in Hn. simpl. tauto.
    + rewrite Hx. simpl. f_equal. apply IH. tauto.
Qed.

(** X21.  The table remembers no id: when the row that [add_user] just added is
    deleted again, which [delete_user] can do for a one-digit id handed
    over as a string, the table is exactly what it was, so the next
    [add_user] assigns the same id once more. *)
Theorem add_then_delete_restores_users
        (name_ age_ : pyval) (draws : list Z) (d d1 : users_db) :
  add_user integer_affinity name_ age_ draws d = Ok d1 ->
  exists i,
    ~ In i (map id d) /\ In i (map id d1)
    /\ forall c, digit_id c = Some i ->
                 delete_user (PStr (String c EmptyString)) d1 = Ok d.
Proof.
  unfold add_user.
  destruct (bind_all [name_; age_]) as [args|e]; [|discriminate].
  destruct args as [|n [|a [|]]]; try discriminate.
  destruct (new_rowid draws d) as [i|] eqn:Ei; [|discriminate].
  intros [= <-]. exists i.
  pose proof (new_rowid_fresh draws d i Ei) as Hfresh.
  split; [exact Hfresh|]. split.
  - apply (Permutation_in _ (Permutation_map id
            (Permutation_sym (insert_by_id_perm _ d)))). now left.
  - intros c Hc. unfold delete_user, execute.
    rewrite delete_parses, delete_resolves.
    cbn [as_sequence placeholders chars List.length Nat.eqb negb bind_all bind_one
         run_stmt matches].
    f_equal.
    set (new := {| id := i; name := to_text n; age := integer_affinity a |}).
    transitivity (filter (fun x => negb (id x =? id new)) (insert_by_id new d));
      [|now apply filter_insert_by_id].
    apply filter_ext. intros u. f_equal. unfold col_test.
    change (String.eqb (upper "id") "ID") with true. cbv iota.
    unfold to_integer. rewrite int_of_text_char, Hc. reflexivity.
Qed.

End AnyAffinity.

Lemma rowid_order_ann_bob : rowid_order [ann; bob].
Proof. repeat constructor. Qed.

Lemma add_user_adds_one_fresh_row_witness :
  exists u,
    get_users [ann; bob; {| id := 3; name := VText "Cy"; age := VInt 52 |}]
    = get_users [ann; bob] ++ [u]
    /\ id u = 3 /\ name u = VText "Cy".
Proof.
  destruct (add_user_adds_one_fresh_row
              to_integer (PStr "Cy") (PStr "52") [] [ann; bob]
              [ann; bob; {| id := 3; name := VText "Cy"; age := VInt 52 |}]
              rowid_order_ann_bob eq_refl)
    as (u & _ & _ & _ & _ & Hm & Hn).
  destruct (Hm 2 eq_refl eq_refl) as [Hi Hd].
  exists u. split; [exact Hd|]. split; [exact Hi | now apply Hn].
Defined.

Lemma add_user_route_checks_only_presence_witness :
  add_user_route to_integer [("age", "41")] [] [ann] = (BadRequest, [ann])
  /\ add_user_route to_integer [("name", EmptyString); ("age", "41")] [] [ann]
     = (Redirect "index",
        [ann] ++ [{| id := 1 + 1; name := VText EmptyString;
                     age := to_integer (VText "41") |}]).
Proof.
  split.
  - apply (proj1 (add_user_route_checks_only_presence
                    to_integer [("age", "41")] [] [ann])).
    left. reflexivity.
  - apply (proj2 (proj2 (add_user_route_checks_only_presence
                           to_integer [("name", EmptyString); ("age", "41")] [] [ann])
                        EmptyString "41" eq_refl eq_refl)
                 1 eq_refl eq_refl).
Defined.

(** Add a third user, delete it as "3", add again: the id is 3 again. *)
Lemma add_then_delete_restores_users_witness :
  exists i,
    In i (map id [ann; bob; {| id := 3; name := VText "Cy"; age := VInt 52 |}])
    /\ delete_user (PStr "3")
         [ann; bob; {| id := 3; name := VText "Cy"; age := VInt 52 |}]
       = Ok [ann; bob]
    /\ add_user to_integer (PStr "Di") (PStr "27") [] [ann; bob]
       = Ok [ann; bob; {| id := 3; name := VText "Di"; age := VInt 27 |}].
Proof.
  destruct (add_then_delete_restores_users
              to_integer (PStr "Cy") (PStr "52") [] [ann; bob]
              [ann; bob; {| id := 3; name := VText "Cy"; age := VInt 52 |}] eq_refl)
    as (i & Hfresh & Hin & Hdel).
  assert (Hi : i = 3).
  { simpl in Hin, Hfresh. destruct Hin as [H | [H | [H | []]]]; subst; try reflexivity;
      exfalso; apply Hfresh; simpl; auto. }
  exists i. split; [exact Hin|]. split; [|reflexivity].
  apply (Hdel "3"%char). rewrite Hi. reflexivity.
Defined.

End FlaskMore.

(** ** Two edges of the page and the query *)

Module EdgeMore.

Import Text Sqlite App Spec Samples Shapes Page.
Import TextFacts RepoFacts FormMore RepositoryMore.

(** X16.  Handed to [fetch_customers] directly, a state filter of white space
    only is not skipped, since the string is not empty; it is stripped to
    the empty string and compared with the stored states, so on a table
    without an empty state the listing is empty.  (The panel strips the
    box before the query and never sends such a filter.) *)
Theorem white_space_state_filter_lists_nothing (s : string) (d : db) :
  s <> EmptyString -> blank s = true ->
  Forall (fun r => state (fields r) <> EmptyString) (customers d) ->
  fetch_customers (Some (only_state s)) d = []
  /\ pipeline true EmptyString EmptyString s d = fetch_customers None d.
Proof.
  intros Hne Hb Hrows.
  assert (E : strip s = EmptyString) by now apply strip_empty_iff.
  split.
  - rewrite fetch_as_filter.
    assert (A : forall r, In r (fetch_customers None d) ->
                          passes (Some (only_state s)) r = false).
    { intros r Hr. apply RepositoryProps.fetch_members in Hr.
      rewrite Forall_forall in Hrows. specialize (Hrows r Hr).
      unfold passes, where_clauses, only_state.
      cbn [get_name get_city get_state present].
      apply truthy_true in Hne. rewrite Hne. cbn [app forallb].
      rewrite strip_upper, E. cbn [upper].
      destruct (String.eqb_spec (state (fields r)) EmptyString);
        [contradiction | reflexivity]. }
    induction (fetch_customers None d) as [|r l IH]; [reflexivity|].
    cbn [filter]. rewrite (A r) by now left.
    apply IH. intros x Hx. apply A. now right.
  - rewrite PanelMore.pipeline_as_filter.
    apply RepositoryProps.filter_all. intros r _.
    rewrite PanelMore.passes_panel, E. reflexivity.
Qed.

Lemma white_space_state_filter_lists_nothing_witness :
  fetch_customers (Some (only_state "  ")) two_rows = []
  /\ pipeline true EmptyString EmptyString "  " two_rows = [omar_row; jane_row].
Proof.
  destruct (white_space_state_filter_lists_nothing "  " two_rows) as [H1 H2].
  - discriminate.
  - reflexivity.
  - repeat constructor; discriminate.
  - split; [exact H1|]. rewrite H2. reflexivity.
Defined.

End EdgeMore.
